(** * A shallow embedding of package [wmi] (wmi.go)

    The package runs a WQL query through COM and binds every returned
    [SWbemObject] onto a caller-declared Go struct by reflection.  The
    embedding keeps the three layers of the source apart:

    - the part of Go's [reflect] the package relies on (kinds, types, zero
      values, settability, the integer setters with their truncation);
    - the external collaborators ([ole], [oleutil], [strconv], [time]) as
      oracles, every call on them being logged in a trace;
    - the package's own functions [checkMultiArg], [loadEntity], [Query] and
      [CreateQuery], translated statement by statement. *)

From Stdlib Require Import ZArith List String Ascii Bool Lia.
Import ListNotations.
Local Open Scope string_scope.
Local Open Scope Z_scope.
Set Warnings "-register-all".

(** ** Go's [reflect]: kinds and types *)

Module reflect.

(** [reflect.Kind], in the order of the Go declaration. *)
Inductive Kind :=
| Invalid | Bool
| Int | Int8 | Int16 | Int32 | Int64
| Uint | Uint8 | Uint16 | Uint32 | Uint64 | Uintptr
| Float32 | Float64 | Complex64 | Complex128
| Array | Chan | Func | Interface | Map | Ptr | Slice | String | Struct
| UnsafePointer.

Definition Kind_eqb (a b : Kind) : bool :=
  match a, b with
  | Invalid, Invalid | Bool, Bool | Int, Int | Int8, Int8 | Int16, Int16
  | Int32, Int32 | Int64, Int64 | Uint, Uint | Uint8, Uint8
  | Uint16, Uint16 | Uint32, Uint32 | Uint64, Uint64 | Uintptr, Uintptr
  | Float32, Float32 | Float64, Float64 | Complex64, Complex64
  | Complex128, Complex128 | Array, Array | Chan, Chan | Func, Func
  | Interface, Interface | Map, Map | Ptr, Ptr | Slice, Slice
  | String, String | Struct, Struct | UnsafePointer, UnsafePointer => true
  | _, _ => false
  end.

End reflect.

(** [reflect.StructField], reduced to the three members the package reads.
    [PkgPath] is empty exactly for exported fields. *)
Record StructField (T : Type) := mkField {
  Name : string;
  PkgPath : string;
  Typ : T
}.
Arguments mkField {T} _ _ _.
Arguments Name {T} _.
Arguments PkgPath {T} _.
Arguments Typ {T} _.

(** A Go type as [reflect.Type] shows it.  Defined (named) types of a
    non-struct kind are identified with their underlying type: the package
    only looks at their kind.  A struct type keeps its package path and its
    name, which [CreateQuery] prints and type identity depends on. *)
Inductive GoType :=
| TBool | TInt | TInt8 | TInt16 | TInt32 | TInt64
| TUint | TUint8 | TUint16 | TUint32 | TUint64 | TUintptr
| TFloat32 | TFloat64 | TComplex64 | TComplex128
| TString
| TUnsafePointer
| TFunc | TInterface
| TArray (len : Z) (elem : GoType)
| TChan (elem : GoType)
| TMap (key elem : GoType)
| TPtr (elem : GoType)
| TSlice (elem : GoType)
| TStruct (pkg name : string) (fields : list (StructField GoType)).

(** [t.Kind()] *)
Definition KindOf (t : GoType) : reflect.Kind :=
  match t with
  | TBool => reflect.Bool
  | TInt => reflect.Int | TInt8 => reflect.Int8 | TInt16 => reflect.Int16
  | TInt32 => reflect.Int32 | TInt64 => reflect.Int64
  | TUint => reflect.Uint | TUint8 => reflect.Uint8
  | TUint16 => reflect.Uint16 | TUint32 => reflect.Uint32
  | TUint64 => reflect.Uint64 | TUintptr => reflect.Uintptr
  | TFloat32 => reflect.Float32 | TFloat64 => reflect.Float64
  | TComplex64 => reflect.Complex64 | TComplex128 => reflect.Complex128
  | TString => reflect.String
  | TUnsafePointer => reflect.UnsafePointer
  | TFunc => reflect.Func | TInterface => reflect.Interface
  | TArray _ _ => reflect.Array
  | TChan _ => reflect.Chan
  | TMap _ _ => reflect.Map
  | TPtr _ => reflect.Ptr
  | TSlice _ => reflect.Slice
  | TStruct _ _ _ => reflect.Struct
  end.

(** [t.Name()] for the only types the package asks it of. *)
Definition TypeName (t : GoType) : string :=
  match t with
  | TStruct _ n _ => n
  | _ => ""
  end.

(** [t.NumField()] and [t.Field(i)], as the list of fields in declaration
    order. *)
Definition FieldsOf (t : GoType) : list (StructField GoType) :=
  match t with
  | TStruct _ _ fs => fs
  | _ => []
  end.

(** Identity of types, the [==] of [reflect.Type]. *)
Fixpoint GoType_eqb (a b : GoType) {struct a} : bool :=
  match a, b with
  | TBool, TBool | TInt, TInt | TInt8, TInt8 | TInt16, TInt16
  | TInt32, TInt32 | TInt64, TInt64 | TUint, TUint | TUint8, TUint8
  | TUint16, TUint16 | TUint32, TUint32 | TUint64, TUint64
  | TUintptr, TUintptr | TFloat32, TFloat32 | TFloat64, TFloat64
  | TComplex64, TComplex64 | TComplex128, TComplex128
  | TString, TString | TUnsafePointer, TUnsafePointer
  | TFunc, TFunc | TInterface, TInterface => true
  | TArray n x, TArray m y => Z.eqb n m && GoType_eqb x y
  | TChan x, TChan y => GoType_eqb x y
  | TMap k x, TMap l y => GoType_eqb k l && GoType_eqb x y
  | TPtr x, TPtr y => GoType_eqb x y
  | TSlice x, TSlice y => GoType_eqb x y
  | TStruct p n fs, TStruct q m gs =>
      String.eqb p q && String.eqb n m &&
      (fix fields_eqb (fs gs : list (StructField GoType)) {struct fs} : bool :=
         match fs, gs with
         | [], [] => true
         | f :: fs', g :: gs' =>
             String.eqb (Name f) (Name g) &&
             String.eqb (PkgPath f) (PkgPath g) &&
             GoType_eqb (Typ f) (Typ g) && fields_eqb fs' gs'
         | _, _ => false
         end) fs gs
  | _, _ => false
  end.

(** ** Go values *)

(** The values the package can see or build.  An integer is its mathematical
    value, kept inside the range of its type by the setters below.  A pointer
    is [nil] or owns its target: every pointer the package makes comes from
    [reflect.New] and is written through exactly once, so no two of them
    alias.  [VZero] stands for the zero value of a kind the package never
    writes (floats, maps, channels and so on). *)
Inductive Value :=
| VBool (b : bool)
| VInt (z : Z)
| VUint (z : Z)
| VString (s : string)
| VStruct (fields : list Value)
| VPtr (target : option Value)
| VSlice (elems : list Value)
| VZero.

(** [reflect.Zero(t)] *)
Fixpoint Zero (t : GoType) : Value :=
  match t with
  | TBool => VBool false
  | TInt | TInt8 | TInt16 | TInt32 | TInt64 => VInt 0
  | TUint | TUint8 | TUint16 | TUint32 | TUint64 | TUintptr => VUint 0
  | TString => VString ""
  | TPtr _ => VPtr None
  | TSlice _ => VSlice []
  | TStruct _ _ fs =>
      VStruct (map (fun f => Zero (Typ f)) fs)
  | _ => VZero
  end.

(** An [interface{}] argument: the nil interface, or a dynamic type with a
    value of it. *)
Inductive Iface :=
| INil
| IVal (t : GoType) (v : Value).

(** ** Errors *)

(** The [error] values that can reach a caller of the package: its sentinel
    [ErrInvalidEntityType], its [*ErrFieldMismatch], and the errors made by
    the packages it calls ([ole], [strconv], [time]), told apart by their
    text. *)
Inductive error :=
| ErrInvalidEntityType
| ErrFieldMismatch (StructType : GoType) (FieldName Reason : string)
| ErrForeign (msg : string).

(** The type assertion of [Query]: is [err] an [ErrFieldMismatch]? *)
Definition isErrFieldMismatch (err : error) : bool :=
  match err with
  | ErrFieldMismatch _ _ _ => true
  | _ => false
  end.

(** A Go result pair [(x, err)] of which the caller reads [x] only when
    [err == nil]. *)
Inductive result (A : Type) :=
| Ok (a : A)
| Err (e : error).
Arguments Ok {A} _.
Arguments Err {A} _.

(** How a call ends: it returns its [error] result (nil is [None]), or it
    panics. *)
Inductive Exit :=
| Returned (err : option error)
| Panicked (msg : string).

(** ** The external collaborators *)

(** [prop.Value()] of the [*ole.VARIANT] a property read gives: the three
    categories [loadEntity] has cases for, the nil interface (VT_NULL,
    VT_EMPTY), and any other non-nil value. *)
Inductive Variant :=
| OleInt64 (iv : Z)
| OleString (sv : string)
| OleBool (bv : bool)
| OleNil
| OleOther.

(** An [SWbemObject] behind its [*ole.IDispatch]: what
    [oleutil.GetProperty(src, n)] answers, already passed through
    [Value()]. *)
Record IDispatch := mkItem {
  GetProperty : string -> result Variant
}.

(** An [SWbemObjectSet]: its [Count] property and its [ItemIndex] method. *)
Record SWbemObjectSet := mkSet {
  Count : result Z;
  ItemIndex : Z -> result IDispatch
}.

(** The COM side of one call of [Query]: the outcome of each step on the
    way to the result set. *)
Record World := mkWorld {
  CreateObject : string -> option error;
  QueryInterface : option error;
  ConnectServer : list Iface -> option error;
  ExecQuery : string -> result SWbemObjectSet
}.

(** The parts of the Go runtime and standard library the binder calls:
    the width of [int], the package variable [timeType], [time.Parse] (its
    result as [reflect.ValueOf(t)]) and [strconv.ParseInt]. *)
Record GoEnv := mkEnv {
  IntSize : Z;
  timeType : GoType;
  time_Parse : string -> string -> result Value;
  strconv_ParseInt : string -> Z -> Z -> result Z
}.

(** Handles that are released, and the calls that leave the Go side, in
    the order they happen. *)
Inductive Handle :=
| HUnknown | HWmi | HService | HResult | HItem (i : Z).

Inductive Event :=
| EvLock | EvUnlock
| EvLockOSThread | EvUnlockOSThread
| EvCoInitializeEx | EvCoUninitialize
| EvCreateObject (progID : string)
| EvQueryInterface
| EvConnectServer (args : list Iface)
| EvExecQuery (query : string)
| EvCount
| EvItemIndex (i : Z)
| EvGetProperty (i : Z) (n : string)
| EvRelease (h : Handle).

(** ** The setters of [reflect.Value] *)

Section Binder.

Context (E : GoEnv).

(** Width in bits of the integer type [t]; [int] and [uint] have the
    platform's width. *)
Definition bitsOf (t : GoType) : Z :=
  match t with
  | TInt | TUint | TUintptr => IntSize E
  | TInt8 | TUint8 => 8
  | TInt16 | TUint16 => 16
  | TInt32 | TUint32 => 32
  | _ => 64
  end.

(** Go's conversion of an integer to a signed, respectively unsigned,
    type of [w] bits: the low [w] bits, reinterpreted. *)
Definition toSigned (w x : Z) : Z :=
  (x + 2 ^ (w - 1)) mod 2 ^ w - 2 ^ (w - 1).

Definition toUnsigned (w x : Z) : Z := x mod 2 ^ w.

(** [f.SetInt(x)] on a field of type [t]: it stores [intN(x)]. *)
Definition SetInt (t : GoType) (x : Z) : Value := VInt (toSigned (bitsOf t) x).

(** [f.SetUint(x)] on a field of type [t]: it stores [uintN(x)]. *)
Definition SetUint (t : GoType) (x : Z) : Value := VUint (toUnsigned (bitsOf t) x).

(** [v.Type().Field(i).PkgPath == ""]: the field is exported, which for a
    field reached from an addressable struct is what [CanSet] reports. *)
Definition exported (fld : StructField GoType) : bool :=
  String.eqb (PkgPath fld) "".

(** ** [loadEntity] *)

(** How the [switch] on the property's value leaves the loop body: a
    setter was called, the switch was left without a write, or the
    function returned. *)
Inductive Switch :=
| Stored (x : Value)
| Break
| Return_ (err : error).

(** The layout constant handed to [time.Parse]. *)
Definition timeLayout : string := "20060102150405.000000-0700".

(** Lines 206-272: the [switch] statement, for the field cursor [f] of
    type [ft], the field name [n] and the property value [val]. *)
Definition coerce (ft : GoType) (isPtr : bool) (n : string) (val : Variant)
  : Switch :=
  match val with
  | OleInt64 iv =>
      match KindOf ft with
      | reflect.Int | reflect.Int8 | reflect.Int16 | reflect.Int32
      | reflect.Int64 =>
          Stored (SetInt ft iv)
      | reflect.Uint | reflect.Uint8 | reflect.Uint16 | reflect.Uint32
      | reflect.Uint64 =>
          Stored (SetUint ft (toUnsigned 64 iv))
      | _ => Return_ (ErrFieldMismatch ft n "not an integer class")
      end
  | OleString sv =>
      let parsed := strconv_ParseInt E sv 10 64 in
      match KindOf ft with
      | reflect.String => Stored (VString sv)
      | reflect.Int | reflect.Int8 | reflect.Int16 | reflect.Int32
      | reflect.Int64 =>
          match parsed with
          | Err err => Return_ err
          | Ok iv => Stored (SetInt ft iv)
          end
      | reflect.Uint | reflect.Uint8 | reflect.Uint16 | reflect.Uint32
      | reflect.Uint64 =>
          match parsed with
          | Err err => Return_ err
          | Ok iv => Stored (SetUint ft (toUnsigned 64 iv))
          end
      | reflect.Struct =>
          if GoType_eqb ft (timeType E) then
            let sv' :=
              if Nat.eqb (String.length sv) 25
              then substring 0 22 sv ++ "0"
                   ++ substring 22 (String.length sv - 22) sv
              else sv in
            match time_Parse E timeLayout sv' with
            | Err err => Return_ err
            | Ok t => Stored t
            end
          else Break
      | _ => Break
      end
  | OleBool bv =>
      match KindOf ft with
      | reflect.Bool => Stored (VBool bv)
      | _ => Return_ (ErrFieldMismatch ft n "not a bool")
      end
  | OleNil =>
      if isPtr then Break
      else Return_ (ErrFieldMismatch ft n "unsupported type")
  | OleOther => Return_ (ErrFieldMismatch ft n "unsupported type")
  end.

(** The type of the cursor [f] once a pointer field has been followed
    ([f = f.Elem()]). *)
Definition cursorType (t : GoType) : GoType :=
  match t with
  | TPtr e => e
  | _ => t
  end.

(** What the cursor holds before the switch: the field itself, or the
    target [reflect.New] has just made for a pointer field. *)
Definition cursorValue (t : GoType) (v : Value) : Value :=
  match t with
  | TPtr e => Zero e
  | _ => v
  end.

(** The field once the cursor holds [x]: [x] itself, or the pointer
    [f.Set(ptr)] stored, whose target is [x]. *)
Definition fieldWith (t : GoType) (x : Value) : Value :=
  match t with
  | TPtr _ => VPtr (Some x)
  | _ => x
  end.

(** How one turn of the loop over the fields ends: with the next field
    ([continue], or the end of the body), or with the function left
    ([return], or a panic).  Either way it tells what the field holds and
    which properties were read; a turn that goes on also gives the
    variable [errFieldMismatch]. *)
Inductive Step :=
| Continue (f : Value) (errFieldMismatch : option error) (props : list string)
| Leave (f : Value) (x : Exit) (props : list string).

(** Lines 182-272: the body of the loop, for the field declared [fld]
    that holds [v]. *)
Definition bindField (src : IDispatch) (fld : StructField GoType)
           (v : Value) (errFieldMismatch : option error) : Step :=
  let t := Typ fld in
  let isPtr := reflect.Kind_eqb (KindOf t) reflect.Ptr in
  if isPtr && negb (exported fld) then
    (* f.Set(ptr) on a Value obtained from an unexported field *)
    Leave v
      (Panicked "reflect: reflect.Value.Set using value obtained using unexported field")
      []
  else
    let ft := cursorType t in
    let n := Name fld in
    if negb (exported fld) then
      Leave (fieldWith t (cursorValue t v))
        (Returned (Some (ErrFieldMismatch ft n "CanSet() is false"))) []
    else
      match GetProperty src n with
      | Err _ =>
          Continue (fieldWith t (cursorValue t v))
            (Some (ErrFieldMismatch ft n "no such struct field")) [n]
      | Ok val =>
          match coerce ft isPtr n val with
          | Stored y => Continue (fieldWith t y) errFieldMismatch [n]
          | Break =>
              Continue (fieldWith t (cursorValue t v)) errFieldMismatch [n]
          | Return_ err =>
              Leave (fieldWith t (cursorValue t v)) (Returned (Some err)) [n]
          end
      end.

(** Lines 181-274: the loop from field [i] on, [fs] and [vs] being the
    declarations and the contents of the fields [i..], and the final
    [return errFieldMismatch].  The result is the contents of these
    fields when the function is left, how it is left, and the names
    [GetProperty] was asked for. *)
Fixpoint fieldLoop (src : IDispatch) (fs : list (StructField GoType))
         (vs : list Value) (errFieldMismatch : option error)
  : list Value * Exit * list string :=
  match fs, vs with
  | fld :: fs', v :: vs' =>
      match bindField src fld v errFieldMismatch with
      | Continue v' errFieldMismatch' props =>
          let '(vs'', x, props') :=
            fieldLoop src fs' vs' errFieldMismatch' in
          (v' :: vs'', x, (props ++ props')%list)
      | Leave v' x props => (v' :: vs', x, props)
      end
  | _, _ => (vs, Returned errFieldMismatch, [])
  end.

(** [loadEntity(dst, src)], [dst] pointing at the struct [v] of type [t]:
    the struct afterwards, the exit, and the properties read. *)
Definition loadEntity (t : GoType) (v : Value) (src : IDispatch)
  : Value * Exit * list string :=
  match v with
  | VStruct vs =>
      let '(vs', x, props) := fieldLoop src (FieldsOf t) vs None in
      (VStruct vs', x, props)
  | _ => (v, Returned None, [])
  end.

End Binder.

(** ** [checkMultiArg] *)

Inductive multiArgType :=
| multiArgTypeInvalid
| multiArgTypeStruct
| multiArgTypeStructPtr.

(** Lines 289-304, on the type of the slice value [v]; the [reflect.Type]
    result is [None] where the source returns nil. *)
Definition checkMultiArg (vt : GoType) : multiArgType * option GoType :=
  match vt with
  | TSlice elemType =>
      match elemType with
      | TStruct _ _ _ => (multiArgTypeStruct, Some elemType)
      | TPtr elemType' =>
          match KindOf elemType' with
          | reflect.Struct => (multiArgTypeStructPtr, Some elemType')
          | _ => (multiArgTypeInvalid, None)
          end
      | _ => (multiArgTypeInvalid, None)
      end
  | _ => (multiArgTypeInvalid, None)
  end.

(** ** [Query] *)

(** [reflect.Append(dv, ev)] *)
Definition Append (dv ev : Value) : Value :=
  match dv with
  | VSlice l => VSlice (l ++ [ev])%list
  | _ => VSlice [ev]
  end.

(** Lines 148-150: the value appended for the struct [ev] points to, the
    pointer itself or the struct. *)
Definition element (mat : multiArgType) (ev : Value) : Value :=
  match mat with
  | multiArgTypeStructPtr => VPtr (Some ev)
  | _ => ev
  end.

Section Driver.

Context (E : GoEnv) (W : World).

(** Lines 128-153: the function literal run for position [i].  It gives
    back its [error] result, the variable [errFieldMismatch] and the slice
    [dv] it closes over, and the trace; the deferred [item.Release()] ends
    the trace on every path that got an item. *)
Definition iteration (result : SWbemObjectSet) (mat : multiArgType)
           (elemType : GoType) (i : Z)
           (errFieldMismatch : option error) (dv : Value)
  : Exit * option error * Value * list Event :=
  match ItemIndex result i with
  | Err err => (Returned (Some err), errFieldMismatch, dv, [EvItemIndex i])
  | Ok item =>
      let '(ev, x, props) := loadEntity E elemType (Zero elemType) item in
      let tr := (EvItemIndex i :: map (EvGetProperty i) props
                 ++ [EvRelease (HItem i)])%list in
      let stored := element mat ev in
      match x with
      | Panicked msg => (Panicked msg, errFieldMismatch, dv, tr)
      | Returned None =>
          (Returned None, errFieldMismatch, Append dv stored, tr)
      | Returned (Some err) =>
          if isErrFieldMismatch err
          then (Returned None, Some err, Append dv stored, tr)
          else (Returned (Some err), errFieldMismatch, dv, tr)
      end
  end.

(** Lines 127-158: the [for] statement with [n] positions left, and the
    [return errFieldMismatch] after it. *)
Fixpoint forItems (result : SWbemObjectSet) (mat : multiArgType)
         (elemType : GoType) (n : nat) (i : Z)
         (errFieldMismatch : option error) (dv : Value)
  : Exit * Value * list Event :=
  match n with
  | O => (Returned errFieldMismatch, dv, [])
  | S n' =>
      match iteration result mat elemType i errFieldMismatch dv with
      | (Returned None, errFieldMismatch', dv', tr) =>
          let '(x, dv'', tr') :=
            forItems result mat elemType n' (i + 1) errFieldMismatch' dv' in
          (x, dv'', (tr ++ tr')%list)
      | (x, _, dv', tr) => (x, dv', tr)
      end
  end.

(** What [defer] leaves to run when [Query] is left after the locks are
    taken, innermost first. *)
Definition leave : list Event := [EvCoUninitialize; EvUnlockOSThread; EvUnlock].

(** Lines 74-159.  The result is the exit, the caller's [dst] afterwards
    (the slice variable it points to is the only memory written), and the
    trace of calls. *)
Definition Query (query : string) (dst : Iface)
           (connectServerArgs : list Iface)
  : Exit * Iface * list Event :=
  match dst with
  | IVal (TPtr vt) (VPtr (Some dv)) =>
      match checkMultiArg vt with
      | (multiArgTypeInvalid, _) | (_, None) =>
          (Returned (Some ErrInvalidEntityType), dst, [])
      | (mat, Some elemType) =>
          let t0 := [EvLock; EvLockOSThread; EvCoInitializeEx;
                     EvCreateObject "WbemScripting.SWbemLocator"] in
          match CreateObject W "WbemScripting.SWbemLocator" with
          | Some err => (Returned (Some err), dst, (t0 ++ leave)%list)
          | None =>
          let t1 := (t0 ++ [EvQueryInterface])%list in
          match QueryInterface W with
          | Some err =>
              (Returned (Some err), dst, (t1 ++ EvRelease HUnknown :: leave)%list)
          | None =>
          let t2 := (t1 ++ [EvConnectServer connectServerArgs])%list in
          let l2 := EvRelease HWmi :: EvRelease HUnknown :: leave in
          match ConnectServer W connectServerArgs with
          | Some err => (Returned (Some err), dst, (t2 ++ l2)%list)
          | None =>
          let t3 := (t2 ++ [EvExecQuery query])%list in
          let l3 := EvRelease HService :: l2 in
          match ExecQuery W query with
          | Err err => (Returned (Some err), dst, (t3 ++ l3)%list)
          | Ok result =>
          let t4 := (t3 ++ [EvCount])%list in
          let l4 := EvRelease HResult :: l3 in
          match Count result with
          | Err err => (Returned (Some err), dst, (t4 ++ l4)%list)
          | Ok count =>
              let '(x, dv', tr) :=
                forItems result mat elemType (Z.to_nat count) 0 None dv in
              (x, IVal (TPtr vt) (VPtr (Some dv')), (t4 ++ tr ++ l4)%list)
          end end end end end
      end
  | _ => (Returned (Some ErrInvalidEntityType), dst, [])
  end.

(** [QueryNamespace] *)
Definition QueryNamespace (query : string) (dst : Iface) (namespace : Iface)
  : Exit * Iface * list Event :=
  Query query dst [INil; namespace].

End Driver.

(** ** [CreateQuery] *)

(** Lines 321-325: [reflect.Indirect(reflect.ValueOf(src))], its type, and
    the element type when it is a slice.  [None] is the panic of
    [s.Type()] on the zero [reflect.Value] a nil interface or a nil
    pointer gives. *)
Definition resolveType (src : Iface) : option GoType :=
  match src with
  | INil => None
  | IVal (TPtr st) (VPtr None) => None
  | IVal (TPtr st) _ =>
      Some (match st with TSlice e => e | _ => st end)
  | IVal st _ =>
      Some (match st with TSlice e => e | _ => st end)
  end.

(** [strings.Join(fields, sep)] *)
Fixpoint Join (fields : list string) (sep : string) : string :=
  match fields with
  | [] => ""
  | [x] => x
  | x :: rest => x ++ sep ++ Join rest sep
  end.

(** Lines 318-338; [None] is a panic. *)
Definition CreateQuery (src : Iface) (where_ : string) : option string :=
  match resolveType src with
  | None => None
  | Some t =>
      match KindOf t with
      | reflect.Struct =>
          let fields := map Name (FieldsOf t) in
          Some ("SELECT " ++ Join fields ", " ++ " FROM " ++ TypeName t
                ++ " " ++ where_)
      | _ => Some ""
      end
  end.

(** ** A Go environment to run the embedding in

    The theorems below hold in every [GoEnv].  To evaluate the functions on
    concrete records, [go64] gives the two library functions at the only
    arguments the package calls them with: [strconv.ParseInt(s, 10, 64)] and
    [time.Parse] at [timeLayout], on a 64-bit platform. *)

Module GoLib.

Definition quote (s : string) : string :=
  String (ascii_of_nat 34) s ++ String (ascii_of_nat 34) "".

Definition isDigit (c : ascii) : bool :=
  ((48 <=? nat_of_ascii c) && (nat_of_ascii c <=? 57))%nat.

(** The value of a non-empty string of decimal digits. *)
Fixpoint digitsFrom (acc : Z) (s : string) : option Z :=
  match s with
  | EmptyString => Some acc
  | String c s' =>
      if isDigit c
      then digitsFrom (10 * acc + Z.of_nat (nat_of_ascii c - 48)) s'
      else None
  end.

Definition digits (s : string) : option Z :=
  match s with
  | EmptyString => None
  | _ => digitsFrom 0 s
  end.

(** [strconv.ParseInt(s, 10, 64)]: an optional sign, decimal digits, and
    the range of [int64]. *)
Definition ParseInt (s : string) (base bitSize : Z) : result Z :=
  let syntax := Err (ErrForeign ("strconv.ParseInt: parsing " ++ quote s
                                 ++ ": invalid syntax")) in
  let range := Err (ErrForeign ("strconv.ParseInt: parsing " ++ quote s
                                ++ ": value out of range")) in
  let '(neg, body) :=
    match s with
    | String "+" r => (false, r)
    | String "-" r => (true, r)
    | _ => (false, s)
    end in
  match digits body with
  | None => syntax
  | Some un =>
      if neg then (if 2 ^ 63 <? un then range else Ok (- un))
      else (if 2 ^ 63 <=? un then range else Ok un)
  end.

(** [time.Time] and the fixed zone [time.Parse] attaches: the fields of
    the Go declarations, those of [Location] reduced to the zone's name
    and offset. *)
Definition Location : GoType :=
  TStruct "time" "Location"
    [mkField "name" "time" TString; mkField "offset" "time" TInt].

Definition Time : GoType :=
  TStruct "time" "Time"
    [mkField "wall" "time" TUint64; mkField "ext" "time" TInt64;
     mkField "loc" "time" (TPtr Location)].

Definition isLeap (y : Z) : bool :=
  (y mod 4 =? 0) && (negb (y mod 100 =? 0) || (y mod 400 =? 0)).

Definition daysIn (y m : Z) : Z :=
  if m =? 2 then (if isLeap y then 29 else 28)
  else if (m =? 4) || (m =? 6) || (m =? 9) || (m =? 11) then 30 else 31.

Definition daysBefore (y m : Z) : Z :=
  fold_right Z.add 0 (map (daysIn y) (map Z.of_nat (seq 1 (Z.to_nat m - 1)))).

(** Seconds from January 1 of year 1, 00:00:00 UTC. *)
Definition absSeconds (y mo d h mi s off : Z) : Z :=
  let y' := y - 1 in
  (365 * y' + y' / 4 - y' / 100 + y' / 400 + daysBefore y mo + d - 1) * 86400
  + h * 3600 + mi * 60 + s - off.

(** The number written in the [n] characters of [value] from offset [i]. *)
Definition number (value : string) (i n : nat) : option Z :=
  digits (substring i n value).

(** [time.Parse(timeLayout, value)]: [value] is cut at the widths of the
    layout, each piece has to be a number in its range.  The zone found is
    always kept as a fixed zone. *)
Definition Parse (layout value : string) : result Value :=
  let bad := Err (ErrForeign ("parsing time " ++ quote value ++ " as "
                              ++ quote layout)) in
  if negb (String.eqb layout timeLayout) then bad
  else if negb (Nat.eqb (String.length value) 26) then bad
  else
    match number value 0 4, number value 4 2, number value 6 2,
          number value 8 2, number value 10 2, number value 12 2,
          number value 15 6, number value 22 2, number value 24 2 with
    | Some y, Some mo, Some d, Some h, Some mi, Some s,
      Some us, Some zh, Some zm =>
        let sign := substring 21 1 value in
        if negb (String.eqb (substring 14 1 value) ".") then bad
        else if negb (String.eqb sign "+" || String.eqb sign "-") then bad
        else if (mo <? 1) || (12 <? mo) || (d <? 1) || (daysIn y mo <? d)
                || (24 <=? h) || (60 <=? mi) || (60 <=? s) then bad
        else
          let off := (if String.eqb sign "-" then -1 else 1)
                     * ((zh * 60 + zm) * 60) in
          Ok (VStruct [VUint (us * 1000);
                       VInt (absSeconds y mo d h mi s off);
                       VPtr (Some (VStruct [VString ""; VInt off]))])
    | _, _, _, _, _, _, _, _, _ => bad
    end.

End GoLib.

Definition go64 : GoEnv :=
  {| IntSize := 64;
     timeType := GoLib.Time;
     time_Parse := GoLib.Parse;
     strconv_ParseInt := GoLib.ParseInt |}.

(** An [SWbemObject] with the listed properties and no other. *)
Fixpoint properties (l : list (string * Variant)) (n : string) : result Variant :=
  match l with
  | [] => Err (ErrForeign "Unknown name.")
  | (k, val) :: l' => if String.eqb k n then Ok val else properties l' n
  end.

Definition object (l : list (string * Variant)) : IDispatch :=
  mkItem (properties l).

(** An [SWbemObjectSet] over the listed items; a position is an object or
    the error fetching it gives. *)
Definition objectSet (items : list (result IDispatch)) : SWbemObjectSet :=
  mkSet (Ok (Z.of_nat (List.length items)))
        (fun i => nth (Z.to_nat i) items (Err (ErrForeign "Invalid index."))).

(** A COM side on which every step up to [ExecQuery] succeeds and the query
    gives [set]. *)
Definition serving (set : SWbemObjectSet) : World :=
  mkWorld (fun _ => None) None (fun _ => None) (fun _ => Ok set).

(** The struct of the package's documentation, with the two columns of the
    command's example. *)
Definition Win32_Process : GoType :=
  TStruct "main" "Win32_Process"
    [mkField "Name" "" TString; mkField "HandleCount" "" TUint32].

Definition slicePtr (elem : GoType) (l : list Value) : Iface :=
  IVal (TPtr (TSlice elem)) (VPtr (Some (VSlice l))).

(** * Vocabulary of the properties *)

(** ** Destinations and shapes *)

(** The destination [Query] documents: a pointer to a slice of a struct
    type [S], or of pointers to it. *)
Definition destination (byRef : bool) (S : GoType) (l : list Value) : Iface :=
  slicePtr (if byRef then TPtr S else S) l.

Definition category (byRef : bool) : multiArgType :=
  if byRef then multiArgTypeStructPtr else multiArgTypeStruct.

(** The shape of the type of [dst] alone: is it [*[]S] or [*[]*S] for a
    struct type [S]? *)
Definition validShape (dst : Iface) : bool :=
  match dst with
  | IVal (TPtr (TSlice (TStruct _ _ _))) _ => true
  | IVal (TPtr (TSlice (TPtr (TStruct _ _ _)))) _ => true
  | _ => false
  end.

(** The three components of what [Query] gives. *)
Definition exitOf (r : Exit * Iface * list Event) : Exit := fst (fst r).
Definition dstOf (r : Exit * Iface * list Event) : Iface := snd (fst r).
Definition traceOf (r : Exit * Iface * list Event) : list Event := snd r.

(** ** Records of a result set *)

(** The exit lets [Query] go on: nil, or a field mismatch. *)
Definition soft (x : Exit) : bool :=
  match x with
  | Returned None => true
  | Returned (Some err) => isErrFieldMismatch err
  | Panicked _ => false
  end.

(** The field mismatch the exit carries, if any. *)
Definition mismatchOf (x : Exit) : option error :=
  match x with
  | Returned (Some err) => if isErrFieldMismatch err then Some err else None
  | _ => None
  end.

Section Records.

Context (E : GoEnv) (rs : SWbemObjectSet) (elemType : GoType).

(** What [loadEntity] makes of [item] in a fresh struct: the struct, the
    exit, the properties read. *)
Definition boundValue (item : IDispatch) : Value :=
  fst (fst (loadEntity E elemType (Zero elemType) item)).

Definition boundExit (item : IDispatch) : Exit :=
  snd (fst (loadEntity E elemType (Zero elemType) item)).

Definition boundProps (item : IDispatch) : list string :=
  snd (loadEntity E elemType (Zero elemType) item).

(** The variable [errFieldMismatch] after the records [items]: the mismatch
    of the last record that had one. *)
Fixpoint lastMismatch (acc : option error) (items : list IDispatch)
  : option error :=
  match items with
  | [] => acc
  | item :: rest =>
      lastMismatch (match mismatchOf (boundExit item) with
                    | Some err => Some err
                    | None => acc
                    end) rest
  end.

(** The calls made for the records [items] at the positions from [i]. *)
Fixpoint itemsTrace (i : Z) (items : list IDispatch) : list Event :=
  match items with
  | [] => []
  | item :: rest =>
      (EvItemIndex i :: map (EvGetProperty i) (boundProps item)
       ++ [EvRelease (HItem i)]) ++ itemsTrace (i + 1) rest
  end%list.

(** [items] are the records of the result set at the positions from [i]. *)
Definition recordsAt (i : Z) (items : list IDispatch) : Prop :=
  forall j item, nth_error items j = Some item ->
                 ItemIndex rs (i + Z.of_nat j) = Ok item.

End Records.

(** Position [k] stops the loop with the hard error [err]: fetching the
    record fails, or binding it fails with an error that is no field
    mismatch. *)
Definition failsAt (E : GoEnv) (result : SWbemObjectSet) (elemType : GoType)
           (k : Z) (err : error) : Prop :=
  ItemIndex result k = Err err \/
  exists item,
    ItemIndex result k = Ok item /\
    boundExit E elemType item = Returned (Some err) /\
    isErrFieldMismatch err = false.

(** The positions [ItemIndex] was called at, in order. *)
Fixpoint fetched (tr : list Event) : list Z :=
  match tr with
  | [] => []
  | EvItemIndex i :: rest => i :: fetched rest
  | _ :: rest => fetched rest
  end.

(** The [n] positions from [i]. *)
Fixpoint positions (i : Z) (n : nat) : list Z :=
  match n with
  | O => []
  | S n' => i :: positions (i + 1) n'
  end.

(** Every step of [Query] before the loop succeeds: the locator is made,
    the server connected, [query] gives [result], whose [Count] is
    [count]. *)
Definition Serves (W : World) (query : string) (args : list Iface)
           (result : SWbemObjectSet) (count : Z) : Prop :=
  CreateObject W "WbemScripting.SWbemLocator" = None /\
  QueryInterface W = None /\
  ConnectServer W args = None /\
  ExecQuery W query = Ok result /\
  Count result = Ok count.

(** The calls before the loop, and those the deferred statements make
    after it. *)
Definition opening (query : string) (args : list Iface) : list Event :=
  [EvLock; EvLockOSThread; EvCoInitializeEx;
   EvCreateObject "WbemScripting.SWbemLocator"; EvQueryInterface;
   EvConnectServer args; EvExecQuery query; EvCount].

Definition closing : list Event :=
  [EvRelease HResult; EvRelease HService; EvRelease HWmi; EvRelease HUnknown;
   EvCoUninitialize; EvUnlockOSThread; EvUnlock].

(** ** Turns of the loop over the fields *)

(** The fresh fields [reflect.New] gives a struct declared with [fs]. *)
Definition zeros (fs : list (StructField GoType)) : list Value :=
  map (fun f => Zero (Typ f)) fs.

Section Turns.

Context (E : GoEnv) (src : IDispatch).

(** What the turn of the loop for [fld] leaves in a fresh field. *)
Definition fieldAfter (fld : StructField GoType) : Value :=
  match bindField E src fld (Zero (Typ fld)) None with
  | Continue f _ _ => f
  | Leave f _ _ => f
  end.

(** The turn for [fld] ends with the next field: [fld] is settable, and its
    property is absent, or of a category the [switch] stores or skips. *)
Definition passes (fld : StructField GoType) : bool :=
  match bindField E src fld (Zero (Typ fld)) None with
  | Continue _ _ _ => true
  | Leave _ _ _ => false
  end.

(** The mismatch a passing turn records: the property is absent. *)
Definition absent (fld : StructField GoType) : option error :=
  match GetProperty src (Name fld) with
  | Err _ => Some (ErrFieldMismatch (cursorType (Typ fld)) (Name fld)
                     "no such struct field")
  | Ok _ => None
  end.

(** [errFieldMismatch] after passing turns for [fs]: the last absent
    property. *)
Fixpoint absentMismatch (acc : option error) (fs : list (StructField GoType))
  : option error :=
  match fs with
  | [] => acc
  | fld :: rest =>
      absentMismatch (match absent fld with Some err => Some err | None => acc end)
        rest
  end.

End Turns.

(** The literal the amended claim C7 says [loadEntity] hands to
    [time.Parse] for the text [sv]; [coerce_time] shows the code does. *)
Definition timeLiteral (sv : string) : string :=
  if Nat.eqb (String.length sv) 25
  then substring 0 22 sv ++ "0" ++ substring 22 3 sv
  else sv.

(** ** Records and types for the examples *)

Definition procSystem : IDispatch :=
  object [("Name", OleString "System"); ("HandleCount", OleInt64 512)].

Definition procSmss : IDispatch :=
  object [("Name", OleString "smss.exe"); ("HandleCount", OleInt64 53)].

(** A record without the property [Name], and one without [HandleCount]. *)
Definition procNoName : IDispatch :=
  object [("HandleCount", OleInt64 7)].

Definition procNoCount : IDispatch :=
  object [("Name", OleString "csrss.exe")].

(** A record whose [Name] is a boolean. *)
Definition procBoolName : IDispatch :=
  object [("Name", OleBool true); ("HandleCount", OleInt64 9)].

(** A struct with an unexported first field, and the same process record
    as before. *)
Definition hiddenName : GoType :=
  TStruct "main" "Win32_Process"
    [mkField "name" "main" TString; mkField "HandleCount" "" TUint32].

(** A struct with an optional field, and a service that is not running:
    its [ProcessId] is null. *)
Definition Win32_Service : GoType :=
  TStruct "main" "Win32_Service"
    [mkField "Name" "" TString; mkField "ProcessId" "" (TPtr TUint32)].

Definition svcStopped : IDispatch :=
  object [("Name", OleString "Spooler"); ("ProcessId", OleNil)].

(** A struct with a timestamp, and three operating-system records: the
    install date as WMI writes it (25 characters: a sign and three digits
    of minutes for the zone), one of 24 characters, and one of 26. *)
Definition Win32_OperatingSystem : GoType :=
  TStruct "main" "Win32_OperatingSystem"
    [mkField "Caption" "" TString; mkField "InstallDate" "" GoLib.Time].

Definition os25 : IDispatch :=
  object [("Caption", OleString "Windows");
          ("InstallDate", OleString "20130605093000.123456+120")].

Definition os24 : IDispatch :=
  object [("Caption", OleString "Windows");
          ("InstallDate", OleString "20130605093000.12345+120")].


(** ** Further vocabulary: how [Query] is entered and left *)

(** [dst] gets past lines 75-83: a non-nil pointer to a slice of structs or
    of pointers to structs. *)
Definition accepted (dst : Iface) : bool :=
  match dst with
  | IVal (TPtr _) (VPtr (Some _)) => validShape dst
  | _ => false
  end.

(** The first error among the steps of lines 93-124, if any. *)
Definition setupError (W : World) (query : string) (args : list Iface)
  : option error :=
  match CreateObject W "WbemScripting.SWbemLocator" with
  | Some err => Some err
  | None =>
      match QueryInterface W with
      | Some err => Some err
      | None =>
          match ConnectServer W args with
          | Some err => Some err
          | None =>
              match ExecQuery W query with
              | Err err => Some err
              | Ok rs =>
                  match Count rs with
                  | Err err => Some err
                  | Ok _ => None
                  end
              end
          end
      end
  end.

(** The calls that take and give back the lock, the thread and COM. *)
Definition sessionEvent (ev : Event) : bool :=
  match ev with
  | EvLock | EvUnlock | EvLockOSThread | EvUnlockOSThread
  | EvCoInitializeEx | EvCoUninitialize => true
  | _ => false
  end.

(** The calls made for one record: fetching it, reading its properties,
    releasing it. *)
Definition recordEvent (ev : Event) : bool :=
  match ev with
  | EvItemIndex _ | EvGetProperty _ _ | EvRelease (HItem _) => true
  | _ => false
  end.

(** The fetches and releases of record handles in a trace, in order. *)
Fixpoint itemEvents (tr : list Event) : list Event :=
  match tr with
  | [] => []
  | EvItemIndex i :: rest => EvItemIndex i :: itemEvents rest
  | EvRelease (HItem i) :: rest => EvRelease (HItem i) :: itemEvents rest
  | _ :: rest => itemEvents rest
  end.

(** [m] records from position [i], each fetched and then released. *)
Fixpoint paired (i : Z) (m : nat) : list Event :=
  match m with
  | O => []
  | S m' => EvItemIndex i :: EvRelease (HItem i) :: paired (i + 1) m'
  end.


(** A struct whose second field is an unexported pointer. *)
Definition hiddenPointer : GoType :=
  TStruct "main" "Win32_Process"
    [mkField "Name" "" TString; mkField "parent" "main" (TPtr TUint32)].


(** The errors [loadEntity] can return for [src] and a struct declared with
    [fs]: a field mismatch for a declared field with one of the five
    reasons of the source, or the error [strconv.ParseInt] or [time.Parse]
    gave for the text of a declared field's property. *)
Definition loadError (E : GoEnv) (src : IDispatch)
           (fs : list (StructField GoType)) (err : error) : Prop :=
  (exists fld r,
      In fld fs /\
      err = ErrFieldMismatch (cursorType (Typ fld)) (Name fld) r /\
      In r ["CanSet() is false"; "no such struct field";
            "not an integer class"; "not a bool"; "unsupported type"]) \/
  (exists fld sv,
      In fld fs /\
      GetProperty src (Name fld) = Ok (OleString sv) /\
      (strconv_ParseInt E sv 10 64 = Err err \/
       time_Parse E timeLayout (timeLiteral sv) = Err err)).

(** A struct with a boolean field, and a service whose [Started] property
    comes as text. *)
Definition Win32_ServiceState : GoType :=
  TStruct "main" "Win32_Service"
    [mkField "Name" "" TString; mkField "Started" "" TBool].

Definition svcTextual : IDispatch :=
  object [("Name", OleString "Spooler"); ("Started", OleString "TRUE")].


(** The turn of the loop for [fld] goes through without a complaint: the
    field is settable, its property is there, and the [switch] stores the
    value or leaves it without returning. *)
Definition binds (E : GoEnv) (src : IDispatch) (fld : StructField GoType)
  : Prop :=
  exported fld = true /\
  exists val,
    GetProperty src (Name fld) = Ok val /\
    forall err,
      coerce E (cursorType (Typ fld))
        (reflect.Kind_eqb (KindOf (Typ fld)) reflect.Ptr) (Name fld) val
      <> Return_ err.

(** A service record without the [Started] property. *)
Definition svcPartial : IDispatch :=
  object [("Name", OleString "Spooler")].


(** ** The command [wmi] (wmi/main.go) *)

(** [strings.Split(s, sep)] for a separator of one byte, the only kind the
    command splits on. *)
Fixpoint Split (s : string) (sep : ascii) : list string :=
  match s with
  | EmptyString => [EmptyString]
  | String c s' =>
      if Ascii.eqb c sep then EmptyString :: Split s' sep
      else match Split s' sep with
           | x :: rest => String c x :: rest
           | [] => [String c EmptyString]
           end
  end.

(** How [main] goes on after reading its arguments: [log.Fatal] with a
    message, or the call of [wmi.QueryGen] with the query, the columns and
    the arguments for the connection. *)
Inductive Outcome :=
| Fatal (msg : string)
| QueryGen (q : string) (columns : list string) (args : list Iface).

Section Command.

(** [strings.ToLower] *)
Variable ToLower : string -> string.

(** Lines 38-55, from the second argument on: the turns of the loop with
    [i > 0], [columns] being the slice so far.  The result is the message
    of [log.Fatal], or [columns] when the loop is left. *)
Fixpoint columnsFrom (rest : list string) (columns : list string)
  : string + list string :=
  match rest with
  | [] => inr columns
  | v :: rest' =>
      if String.eqb v "*" then
        inl "wmi: must specify columns, * not supported"
      else if String.eqb (ToLower v) "from" then inr columns
      else
        columnsFrom rest'
          (columns
           ++ filter (fun s => Nat.ltb 0 (String.length s)) (Split v ","))%list
  end.

(** Lines 32-65: [main] up to the call of [wmi.QueryGen], for the value of
    the flag [-n] and for [flag.Args()]. *)
Definition main (namespace : string) (Args : list string) : Outcome :=
  let q := Join Args " " in
  if Nat.eqb (String.length q) 0 then Fatal "wmi: no query specified"
  else
    match Args with
    | [] => Fatal "wmi: no columns specified"
    | v :: rest =>
        if negb (String.eqb (ToLower v) "select") then
          Fatal "wmi: expected select"
        else
          match columnsFrom rest [] with
          | inl msg => Fatal msg
          | inr columns =>
              if Nat.eqb (List.length columns) 0 then
                Fatal "wmi: no columns specified"
              else
                QueryGen q columns
                  (if negb (String.eqb namespace "") then
                     [INil; IVal TString (VString namespace)]
                   else [])
          end
    end.

End Command.

(** Does the byte [c] occur in [s]? *)
Fixpoint hasByte (c : ascii) (s : string) : bool :=
  match s with
  | EmptyString => false
  | String d s' => Ascii.eqb d c || hasByte c s'
  end.

(** [strings.ToLower] on ASCII text. *)
Fixpoint asciiLower (s : string) : string :=
  match s with
  | EmptyString => EmptyString
  | String c s' =>
      let n := nat_of_ascii c in
      String (if (Nat.leb 65 n && Nat.leb n 90)%bool
              then ascii_of_nat (n + 32) else c)
             (asciiLower s')
  end.


(** The reason [loadEntity] gives when the value [val] of a property is of
    a category the cursor of type [ft] cannot take, [isPtr] telling that
    the field is a pointer; [None] when the [switch] has a case for the
    pair, or leaves it alone. *)
Definition unfit (ft : GoType) (isPtr : bool) (val : Variant)
  : option string :=
  match val with
  | OleInt64 _ =>
      if existsb (reflect.Kind_eqb (KindOf ft))
           [reflect.Int; reflect.Int8; reflect.Int16; reflect.Int32;
            reflect.Int64; reflect.Uint; reflect.Uint8; reflect.Uint16;
            reflect.Uint32; reflect.Uint64]
      then None else Some "not an integer class"
  | OleBool _ =>
      if reflect.Kind_eqb (KindOf ft) reflect.Bool then None
      else Some "not a bool"
  | OleNil => if isPtr then None else Some "unsupported type"
  | OleOther => Some "unsupported type"
  | OleString _ => None
  end.


(** * Properties *)

(** ** Types and shapes *)

Lemma GoType_eqb_refl : forall t, GoType_eqb t t = true.
Proof.
  fix IH 1.
  destruct t; simpl; try reflexivity;
    rewrite ?Z.eqb_refl, ?IH; try reflexivity.
  rewrite !String.eqb_refl; simpl.
  induction fields as [|f fs IHfs]; [reflexivity|].
  rewrite !String.eqb_refl, IH, IHfs. reflexivity.
Qed.

Lemma checkMultiArg_struct :
  forall (byRef : bool) (p n : string) (fs : list (StructField GoType)),
  checkMultiArg (TSlice (if byRef then TPtr (TStruct p n fs) else TStruct p n fs))
  = (category byRef, Some (TStruct p n fs)).
Proof. destruct byRef; reflexivity. Qed.

(** ** The loop over the result set *)

Section Loop.

Context (E : GoEnv) (rs : SWbemObjectSet) (mat : multiArgType)
        (elemType : GoType).

Lemma recordsAt_cons : forall i item items,
  recordsAt rs i (item :: items) ->
  ItemIndex rs i = Ok item /\ recordsAt rs (i + 1) items.
Proof.
  intros i item items H. split.
  - specialize (H O item eq_refl). now rewrite Z.add_0_r in H.
  - intros j it Hj. specialize (H (S j) it Hj).
    now replace (i + 1 + Z.of_nat j) with (i + Z.of_nat (S j)) by lia.
Qed.

Lemma iteration_soft : forall i item acc l,
  ItemIndex rs i = Ok item ->
  soft (boundExit E elemType item) = true ->
  iteration E rs mat elemType i acc (VSlice l)
  = (Returned None,
     match mismatchOf (boundExit E elemType item) with Some err => Some err | None => acc end,
     VSlice (l ++ [element mat (boundValue E elemType item)]),
     (EvItemIndex i :: map (EvGetProperty i) (boundProps E elemType item)
      ++ [EvRelease (HItem i)])%list).
Proof.
  intros i item acc l Hi Hs.
  unfold iteration, boundExit, boundValue, boundProps in *. rewrite Hi.
  destruct (loadEntity E elemType (Zero elemType) item) as [[ev x] props].
  simpl in *. destruct x as [[err|]|msg]; simpl in *.
  - rewrite Hs. reflexivity.
  - reflexivity.
  - discriminate.
Qed.

(** The loop, over a run of records none of which stops it. *)
Lemma forItems_soft : forall items n i acc l,
  recordsAt rs i items ->
  Forall (fun item => soft (boundExit E elemType item) = true) items ->
  forItems E rs mat elemType (List.length items + n) i acc (VSlice l)
  = let '(x, dv, tr) :=
      forItems E rs mat elemType n (i + Z.of_nat (List.length items))
        (lastMismatch E elemType acc items)
        (VSlice (l ++ map (fun item => element mat (boundValue E elemType item)) items)) in
    (x, dv, (itemsTrace E elemType i items ++ tr)%list).
Proof.
  induction items as [|item items IH]; intros n i acc l Hrec Hsoft.
  - simpl. rewrite Z.add_0_r, app_nil_r.
    destruct (forItems E rs mat elemType n i acc (VSlice l)) as [[x dv] tr].
    reflexivity.
  - apply recordsAt_cons in Hrec. destruct Hrec as [Hi Hrec].
    inversion Hsoft as [|? ? Hs Hsoft']; subst.
    cbn [List.length Nat.add forItems].
    rewrite (iteration_soft i item acc l Hi Hs).
    rewrite (IH n (i + 1) _ _ Hrec Hsoft').
    replace (i + 1 + Z.of_nat (List.length items))
      with (i + Z.of_nat (S (List.length items))) by lia.
    cbn [map lastMismatch itemsTrace].
    rewrite <- app_assoc. cbn [app].
    destruct (forItems E rs mat elemType n _ _ _) as [[x dv] tr].
    cbn [app]. rewrite <- !app_assoc. reflexivity.
Qed.

Lemma fetched_app : forall a b, fetched (a ++ b) = (fetched a ++ fetched b)%list.
Proof.
  induction a as [|e a IH]; intros b; [reflexivity|].
  destruct e; simpl; rewrite IH; reflexivity.
Qed.

Lemma fetched_props : forall i props,
  fetched (map (EvGetProperty i) props ++ [EvRelease (HItem i)]) = [].
Proof. induction props; simpl; auto. Qed.

Lemma fetched_itemsTrace : forall items i,
  fetched (itemsTrace E elemType i items) = positions i (List.length items).
Proof.
  induction items as [|item items IH]; intros i; [reflexivity|].
  cbn [itemsTrace List.length positions].
  rewrite fetched_app. cbn [fetched app].
  rewrite fetched_props, IH. reflexivity.
Qed.

Lemma positions_snoc : forall n i,
  positions i (S n) = (positions i n ++ [i + Z.of_nat n])%list.
Proof.
  induction n as [|n IH]; intros i.
  - simpl. now rewrite Z.add_0_r.
  - change (positions i (S (S n))) with (i :: positions (i + 1) (S n)).
    rewrite IH. cbn [positions app]. do 3 f_equal. lia.
Qed.

End Loop.

(** ** The loop over the fields *)

Section Fields.

Context (E : GoEnv) (src : IDispatch).

Lemma bindField_passes : forall fld acc,
  passes E src fld = true ->
  bindField E src fld (Zero (Typ fld)) acc
  = Continue (fieldAfter E src fld)
      (match absent src fld with Some err => Some err | None => acc end)
      [Name fld].
Proof.
  intros fld acc. unfold passes, fieldAfter, absent, bindField.
  destruct (reflect.Kind_eqb (KindOf (Typ fld)) reflect.Ptr && negb (exported fld));
    [discriminate|].
  destruct (negb (exported fld)); [discriminate|].
  destruct (GetProperty src (Name fld)) as [val|e]; [|reflexivity].
  destruct (coerce E _ _ _ val); try discriminate; reflexivity.
Qed.

(** The loop over fresh fields, through a run of passing turns. *)
Lemma fieldLoop_passes : forall pre rest vs acc,
  Forall (fun fld => passes E src fld = true) pre ->
  fieldLoop E src (pre ++ rest) (zeros pre ++ vs) acc
  = let '(vs', x, props) := fieldLoop E src rest vs (absentMismatch src acc pre) in
    ((map (fieldAfter E src) pre ++ vs')%list, x, (map Name pre ++ props)%list).
Proof.
  induction pre as [|fld pre IH]; intros rest vs acc Hp.
  - simpl. destruct (fieldLoop E src rest vs acc) as [[vs' x] props].
    reflexivity.
  - inversion Hp as [|? ? Hf Hp']; subst.
    cbn [app zeros map fieldLoop].
    rewrite (bindField_passes fld acc Hf).
    fold (zeros pre). rewrite (IH rest vs _ Hp').
    cbn [absentMismatch].
    destruct (fieldLoop E src rest vs _) as [[vs' x] props].
    reflexivity.
Qed.

Lemma loadEntity_struct : forall p n fs,
  loadEntity E (TStruct p n fs) (Zero (TStruct p n fs)) src
  = let '(vs', x, props) := fieldLoop E src fs (zeros fs) None in
    (VStruct vs', x, props).
Proof. reflexivity. Qed.

(** A struct all of whose fields pass. *)
Lemma loadEntity_passes : forall p n fs,
  Forall (fun fld => passes E src fld = true) fs ->
  loadEntity E (TStruct p n fs) (Zero (TStruct p n fs)) src
  = (VStruct (map (fieldAfter E src) fs), Returned (absentMismatch src None fs),
     map Name fs).
Proof.
  intros p n fs Hp. rewrite loadEntity_struct.
  pose proof (fieldLoop_passes fs [] [] None Hp) as H.
  rewrite !app_nil_r in H. rewrite H. simpl. now rewrite !app_nil_r.
Qed.

(** A struct whose fields pass up to [fld], where the turn is
    [bindField]'s to decide. *)
Lemma loadEntity_upto : forall p n pre fld post,
  Forall (fun f => passes E src f = true) pre ->
  loadEntity E (TStruct p n (pre ++ fld :: post))
    (Zero (TStruct p n (pre ++ fld :: post))) src
  = match bindField E src fld (Zero (Typ fld)) (absentMismatch src None pre) with
    | Continue f acc props =>
        let '(vs', x, props') := fieldLoop E src post (zeros post) acc in
        (VStruct (map (fieldAfter E src) pre ++ f :: vs'), x,
         (map Name pre ++ props ++ props')%list)
    | Leave f x props =>
        (VStruct (map (fieldAfter E src) pre ++ f :: zeros post), x,
         (map Name pre ++ props)%list)
    end.
Proof.
  intros p n pre fld post Hp. rewrite loadEntity_struct.
  unfold zeros at 1. rewrite map_app. fold (zeros pre).
  cbn [map]. fold (zeros post).
  rewrite (fieldLoop_passes pre (fld :: post) _ None Hp).
  cbn [fieldLoop].
  destruct (bindField E src fld (Zero (Typ fld)) (absentMismatch src None pre))
    as [f acc props|f x props].
  - destruct (fieldLoop E src post (zeros post) acc) as [[vs' x] props'].
    reflexivity.
  - reflexivity.
Qed.

End Fields.

(** ** [Query], once the result set is there *)

Lemma Query_serves :
  forall E W query args result count byRef p n fs prior,
    Serves W query args result count ->
    Query E W query (destination byRef (TStruct p n fs) prior) args
    = let '(x, dv', tr) :=
        forItems E result (category byRef) (TStruct p n fs)
          (Z.to_nat count) 0 None (VSlice prior) in
      (x,
       IVal (TPtr (TSlice (if byRef then TPtr (TStruct p n fs)
                           else TStruct p n fs))) (VPtr (Some dv')),
       (opening query args ++ tr ++ closing)%list).
Proof.
  intros E W query args result count byRef p n fs prior
         (H1 & H2 & H3 & H4 & H5).
  unfold Query, destination, slicePtr.
  rewrite checkMultiArg_struct.
  replace (match category byRef with
           | multiArgTypeInvalid => _
           | _ => _
           end)
    with (match CreateObject W "WbemScripting.SWbemLocator" with
          | Some err =>
              (Returned (Some err),
               IVal (TPtr (TSlice (if byRef then TPtr (TStruct p n fs)
                                   else TStruct p n fs)))
                 (VPtr (Some (VSlice prior))),
               ([EvLock; EvLockOSThread; EvCoInitializeEx;
                 EvCreateObject "WbemScripting.SWbemLocator"] ++ leave)%list)
          | None =>
              let '(x, dv', tr) :=
                forItems E result (category byRef) (TStruct p n fs)
                  (Z.to_nat count) 0 None (VSlice prior) in
              (x,
               IVal (TPtr (TSlice (if byRef then TPtr (TStruct p n fs)
                                   else TStruct p n fs))) (VPtr (Some dv')),
               (opening query args ++ tr ++ closing)%list)
          end).
  - now rewrite H1.
  - destruct byRef; cbn [category]; rewrite H1, H2, H3, H4, H5;
      destruct (forItems E result _ _ _ _ _ _) as [[x dv'] tr];
      reflexivity.
Qed.

Lemma lastMismatch_none : forall E elemType items acc,
  Forall (fun item => boundExit E elemType item = Returned None) items ->
  lastMismatch E elemType acc items = acc.
Proof.
  induction items as [|item items IH]; intros acc H; [reflexivity|].
  inversion H as [|? ? H1 H2]; subst. simpl. rewrite H1. simpl. now apply IH.
Qed.

Lemma fetched_opening : forall query args, fetched (opening query args) = [].
Proof. reflexivity. Qed.

(** A result set all of whose records let the loop go on. *)
Lemma Query_soft :
  forall E W query args result byRef p n fs prior items,
    Serves W query args result (Z.of_nat (List.length items)) ->
    recordsAt result 0 items ->
    Forall (fun item => soft (boundExit E (TStruct p n fs) item) = true) items ->
    Query E W query (destination byRef (TStruct p n fs) prior) args
    = (Returned (lastMismatch E (TStruct p n fs) None items),
       destination byRef (TStruct p n fs)
         (prior ++ map (fun item =>
                          element (category byRef)
                            (boundValue E (TStruct p n fs) item)) items),
       (opening query args
        ++ itemsTrace E (TStruct p n fs) 0 items ++ closing)%list).
Proof.
  intros E W query args result byRef p n fs prior items HW Hrec Hsoft.
  rewrite (Query_serves E W query args result _ byRef p n fs prior HW).
  rewrite Nat2Z.id.
  pose proof (forItems_soft E result (category byRef) (TStruct p n fs)
                items 0 0 None prior Hrec Hsoft) as H.
  rewrite Nat.add_0_r in H. rewrite H. cbn [forItems].
  rewrite app_nil_r. reflexivity.
Qed.

Lemma iteration_hard : forall E result mat elemType k err acc dv,
  failsAt E result elemType k err ->
  exists tr,
    iteration E result mat elemType k acc dv = (Returned (Some err), acc, dv, tr)
    /\ fetched tr = [k].
Proof.
  intros E result mat elemType k err acc dv [H|(item & H1 & H2 & H3)].
  - exists [EvItemIndex k]. unfold iteration. rewrite H. split; reflexivity.
  - unfold iteration, boundExit in *. rewrite H1.
    destruct (loadEntity E elemType (Zero elemType) item) as [[ev x] props].
    simpl in H2. subst x. rewrite H3.
    eexists. split; [reflexivity|].
    cbn [fetched]. now rewrite fetched_props.
Qed.

(** A result set whose records let the loop go on up to a position that
    stops it. *)
Lemma Query_hard :
  forall E W query args result count byRef p n fs prior before err,
    Serves W query args result count ->
    recordsAt result 0 before ->
    Forall (fun item => soft (boundExit E (TStruct p n fs) item) = true) before ->
    Z.of_nat (List.length before) < count ->
    failsAt E result (TStruct p n fs) (Z.of_nat (List.length before)) err ->
    exists tr,
      Query E W query (destination byRef (TStruct p n fs) prior) args
      = (Returned (Some err),
         destination byRef (TStruct p n fs)
           (prior ++ map (fun item =>
                            element (category byRef)
                              (boundValue E (TStruct p n fs) item)) before),
         tr)
      /\ fetched tr = positions 0 (S (List.length before)).
Proof.
  intros E W query args result count byRef p n fs prior before err
         HW Hrec Hsoft Hlt Hfail.
  rewrite (Query_serves E W query args result _ byRef p n fs prior HW).
  replace (Z.to_nat count)
    with (List.length before + S (Z.to_nat count - List.length before - 1))%nat
    by lia.
  rewrite (forItems_soft E result (category byRef) (TStruct p n fs)
             before _ 0 None prior Hrec Hsoft).
  cbn [forItems]. rewrite Z.add_0_l.
  destruct (iteration_hard E result (category byRef) (TStruct p n fs) _ err
              (lastMismatch E (TStruct p n fs) None before)
              (VSlice (prior ++ map (fun item =>
                                       element (category byRef)
                                         (boundValue E (TStruct p n fs) item))
                                    before)) Hfail) as (tr & Hit & Htr).
  rewrite Hit. eexists. split; [reflexivity|].
  rewrite !fetched_app, fetched_opening, fetched_itemsTrace, Htr.
  change (fetched closing) with (@nil Z).
  rewrite app_nil_r, positions_snoc, Z.add_0_l. reflexivity.
Qed.


Lemma lastMismatch_app : forall E elemType a b acc,
  lastMismatch E elemType acc (a ++ b)
  = lastMismatch E elemType (lastMismatch E elemType acc a) b.
Proof.
  induction a as [|x a IH]; intros b acc; [reflexivity|].
  simpl. apply IH.
Qed.

(** The loop only ever appends to the slice. *)
Lemma forItems_appends : forall E rs mat elemType n i acc l,
  exists added,
    snd (fst (forItems E rs mat elemType n i acc (VSlice l)))
    = VSlice (l ++ added).
Proof.
  induction n as [|n IH]; intros i acc l.
  - exists []. simpl. now rewrite app_nil_r.
  - cbn [forItems]. unfold iteration.
    destruct (ItemIndex rs i) as [item|err].
    + destruct (loadEntity E elemType (Zero elemType) item) as [[ev x] props].
      destruct x as [[err|]|msg].
      * destruct (isErrFieldMismatch err).
        -- cbn [Append].
           destruct (IH (i + 1) (Some err) (l ++ [element mat ev])%list)
             as [added Ha].
           destruct (forItems E rs mat elemType n _ _ _) as [[x dv] tr].
           simpl in *. subst dv. exists (element mat ev :: added).
           now rewrite <- app_assoc.
        -- exists []. simpl. now rewrite app_nil_r.
      * cbn [Append].
        destruct (IH (i + 1) acc (l ++ [element mat ev])%list) as [added Ha].
        destruct (forItems E rs mat elemType n _ _ _) as [[x dv] tr].
        simpl in *. subst dv. exists (element mat ev :: added).
        now rewrite <- app_assoc.
      * exists []. simpl. now rewrite app_nil_r.
    + exists []. simpl. now rewrite app_nil_r.
Qed.

(** ** Records for the examples *)

Lemma recordsAt_objectSet : forall items,
  recordsAt (objectSet (map Ok items)) 0 items.
Proof.
  intros items j item Hj. cbn [objectSet ItemIndex].
  rewrite Z.add_0_l, Nat2Z.id.
  apply nth_error_nth with (d := Err (ErrForeign "Invalid index.")).
  now rewrite nth_error_map, Hj.
Qed.

Lemma Serves_serving : forall items query args,
  Serves (serving (objectSet items)) query args (objectSet items)
         (Z.of_nat (List.length items)).
Proof. intros. repeat split. Qed.

(** ** The claims about [Query] *)

(** C1.  For a destination [*[]S] or [*[]*S], [S] a struct type, and a
    result set of N records each of which [loadEntity] binds with a nil
    error, no step failing, [Query] returns nil and the slice holds what it
    held followed by the N bound records in the order of their positions:
    N elements more than before, exactly N when it was empty. *)
Theorem Query_appends_every_record :
  forall E W query args rs byRef p n fs prior items,
    Serves W query args rs (Z.of_nat (List.length items)) ->
    recordsAt rs 0 items ->
    Forall (fun item => boundExit E (TStruct p n fs) item = Returned None)
           items ->
    exitOf (Query E W query (destination byRef (TStruct p n fs) prior) args)
    = Returned None /\
    dstOf (Query E W query (destination byRef (TStruct p n fs) prior) args)
    = destination byRef (TStruct p n fs)
        (prior ++ map (fun item =>
                         element (category byRef)
                           (boundValue E (TStruct p n fs) item)) items) /\
    List.length
      (prior ++ map (fun item =>
                       element (category byRef)
                         (boundValue E (TStruct p n fs) item)) items)
    = (List.length prior + List.length items)%nat.
Proof.
  intros E W query args rs byRef p n fs prior items HW Hrec Hnil.
  rewrite (Query_soft E W query args rs byRef p n fs prior items HW Hrec).
  - rewrite (lastMismatch_none _ _ _ _ Hnil).
    split; [reflexivity|split; [reflexivity|]].
    now rewrite length_app, length_map.
  - eapply Forall_impl; [|exact Hnil].
    intros item H. cbv beta in H. now rewrite H.
Qed.

Lemma Query_appends_every_record_witness :
  exitOf (Query go64 (serving (objectSet [Ok procSystem; Ok procSmss]))
            "SELECT Name, HandleCount FROM Win32_Process "
            (destination true Win32_Process []) [])
  = Returned None /\
  dstOf (Query go64 (serving (objectSet [Ok procSystem; Ok procSmss]))
           "SELECT Name, HandleCount FROM Win32_Process "
           (destination true Win32_Process []) [])
  = destination true Win32_Process
      [VPtr (Some (VStruct [VString "System"; VUint 512]));
       VPtr (Some (VStruct [VString "smss.exe"; VUint 53]))].
Proof.
  pose proof (Query_appends_every_record go64
                (serving (objectSet [Ok procSystem; Ok procSmss]))
                "SELECT Name, HandleCount FROM Win32_Process " []
                (objectSet [Ok procSystem; Ok procSmss]) true
                "main" "Win32_Process"
                [mkField "Name" "" TString; mkField "HandleCount" "" TUint32]
                [] [procSystem; procSmss]
                (Serves_serving [Ok procSystem; Ok procSmss] _ _)
                (recordsAt_objectSet [procSystem; procSmss])) as H.
  destruct H as (H1 & H2 & _).
  - repeat constructor.
  - split; [exact H1|exact H2].
Defined.

(** C3.  When the type of [dst] is not a pointer to a slice of a struct type
    or of pointers to a struct type, [Query] returns [ErrInvalidEntityType],
    leaves [dst] as it is and makes no call at all: the trace is empty. *)
Theorem Query_rejects_invalid_shape :
  forall E W query dst args,
    validShape dst = false ->
    Query E W query dst args
    = (Returned (Some ErrInvalidEntityType), dst, []).
Proof.
  intros E W query dst args H.
  destruct dst as [|t v]; [reflexivity|].
  destruct t; try reflexivity.
  destruct v as [| | | | |[dv|]| |]; try reflexivity.
  destruct t; try reflexivity.
  destruct t; try reflexivity; try discriminate.
  destruct t; try reflexivity; discriminate.
Qed.

Lemma Query_rejects_invalid_shape_witness :
  Query go64 (serving (objectSet [Ok procSystem])) "SELECT Name FROM Win32_Process"
    (IVal (TPtr Win32_Process) (VPtr (Some (Zero Win32_Process)))) []
  = (Returned (Some ErrInvalidEntityType),
     IVal (TPtr Win32_Process) (VPtr (Some (Zero Win32_Process))), []).
Proof.
  apply (Query_rejects_invalid_shape go64 (serving (objectSet [Ok procSystem]))).
  reflexivity.
Defined.

(** C4.  When the records before position k let the loop go on and position
    k of a longer result set fails hard (fetching the record fails, or
    binding it gives an error that is no field mismatch), [Query] returns
    that error, the slice holds what it held followed by the k records bound
    before, and [ItemIndex] was called at the positions 0..k and no other. *)
Theorem Query_stops_at_hard_error :
  forall E W query args rs count byRef p n fs prior before err,
    Serves W query args rs count ->
    recordsAt rs 0 before ->
    Forall (fun item => soft (boundExit E (TStruct p n fs) item) = true)
           before ->
    Z.of_nat (List.length before) < count ->
    failsAt E rs (TStruct p n fs) (Z.of_nat (List.length before)) err ->
    exitOf (Query E W query (destination byRef (TStruct p n fs) prior) args)
    = Returned (Some err) /\
    dstOf (Query E W query (destination byRef (TStruct p n fs) prior) args)
    = destination byRef (TStruct p n fs)
        (prior ++ map (fun item =>
                         element (category byRef)
                           (boundValue E (TStruct p n fs) item)) before) /\
    fetched (traceOf (Query E W query
                        (destination byRef (TStruct p n fs) prior) args))
    = positions 0 (S (List.length before)).
Proof.
  intros E W query args rs count byRef p n fs prior before err
         HW Hrec Hsoft Hlt Hfail.
  destruct (Query_hard E W query args rs count byRef p n fs prior before err
              HW Hrec Hsoft Hlt Hfail) as (tr & HQ & Htr).
  rewrite HQ. repeat split. exact Htr.
Qed.

Lemma Query_stops_at_hard_error_witness :
  exitOf (Query go64
            (serving (objectSet [Ok procSystem;
                                 Err (ErrForeign "The RPC server is unavailable.");
                                 Ok procSmss]))
            "SELECT Name, HandleCount FROM Win32_Process "
            (destination false Win32_Process []) [])
  = Returned (Some (ErrForeign "The RPC server is unavailable.")) /\
  dstOf (Query go64
           (serving (objectSet [Ok procSystem;
                                Err (ErrForeign "The RPC server is unavailable.");
                                Ok procSmss]))
           "SELECT Name, HandleCount FROM Win32_Process "
           (destination false Win32_Process []) [])
  = destination false Win32_Process [VStruct [VString "System"; VUint 512]] /\
  fetched (traceOf (Query go64
                      (serving (objectSet [Ok procSystem;
                                           Err (ErrForeign "The RPC server is unavailable.");
                                           Ok procSmss]))
                      "SELECT Name, HandleCount FROM Win32_Process "
                      (destination false Win32_Process []) []))
  = [0; 1].
Proof.
  apply (Query_stops_at_hard_error go64
           (serving (objectSet [Ok procSystem;
                                Err (ErrForeign "The RPC server is unavailable.");
                                Ok procSmss]))
           "SELECT Name, HandleCount FROM Win32_Process " []
           (objectSet [Ok procSystem;
                       Err (ErrForeign "The RPC server is unavailable.");
                       Ok procSmss])
           3 false "main" "Win32_Process"
           [mkField "Name" "" TString; mkField "HandleCount" "" TUint32]
           [] [procSystem] (ErrForeign "The RPC server is unavailable.")).
  - repeat split.
  - intros j item H. destruct j as [|[|j]]; simpl in H; try discriminate.
    inversion H; subst. reflexivity.
  - repeat constructor.
  - simpl. lia.
  - left. reflexivity.
Defined.





(** C5, amended.  When no record fails hard, the error [Query] returns is
    the field mismatch of the last record that had one: mismatches of later
    records replace those of earlier ones. *)
Theorem Query_returns_last_mismatch :
  forall E W query args rs byRef p n fs prior earlier item later err,
    Serves W query args rs
           (Z.of_nat (List.length (earlier ++ item :: later))) ->
    recordsAt rs 0 (earlier ++ item :: later) ->
    Forall (fun it => soft (boundExit E (TStruct p n fs) it) = true) earlier ->
    boundExit E (TStruct p n fs) item = Returned (Some err) ->
    isErrFieldMismatch err = true ->
    Forall (fun it => boundExit E (TStruct p n fs) it = Returned None) later ->
    exitOf (Query E W query (destination byRef (TStruct p n fs) prior) args)
    = Returned (Some err).
Proof.
  intros E W query args rs byRef p n fs prior earlier item later err
         HW Hrec Hearlier Hitem Hm Hlater.
  rewrite (Query_soft E W query args rs byRef p n fs prior _ HW Hrec).
  - unfold exitOf. cbn [fst].
    rewrite lastMismatch_app. cbn [lastMismatch].
    rewrite Hitem. cbn [mismatchOf]. rewrite Hm.
    now rewrite (lastMismatch_none _ _ _ _ Hlater).
  - apply Forall_app. split; [exact Hearlier|].
    constructor.
    + rewrite Hitem. exact Hm.
    + eapply Forall_impl; [|exact Hlater].
      intros it H. cbv beta in H. now rewrite H.
Qed.

Lemma Query_returns_last_mismatch_witness :
  exitOf (Query go64
            (serving (objectSet [Ok procNoName; Ok procNoCount; Ok procSmss]))
            "SELECT Name, HandleCount FROM Win32_Process "
            (destination false Win32_Process []) [])
  = Returned (Some (ErrFieldMismatch TUint32 "HandleCount"
                      "no such struct field")).
Proof.
  apply (Query_returns_last_mismatch go64
           (serving (objectSet [Ok procNoName; Ok procNoCount; Ok procSmss]))
           "SELECT Name, HandleCount FROM Win32_Process " []
           (objectSet [Ok procNoName; Ok procNoCount; Ok procSmss]) false
           "main" "Win32_Process"
           [mkField "Name" "" TString; mkField "HandleCount" "" TUint32]
           [] [procNoName] procNoCount [procSmss]).
  - apply (Serves_serving [Ok procNoName; Ok procNoCount; Ok procSmss]).
  - apply (recordsAt_objectSet [procNoName; procNoCount; procSmss]).
  - repeat constructor.
  - reflexivity.
  - reflexivity.
  - repeat constructor.
Defined.

(** C5 as stated fails: of two records with a mismatch each, [Query]
    returns the mismatch of the second, not the one observed first. *)
Lemma Query_first_mismatch_counterexample :
  boundExit go64 Win32_Process procNoName
  = Returned (Some (ErrFieldMismatch TString "Name" "no such struct field")) /\
  boundExit go64 Win32_Process procNoCount
  = Returned (Some (ErrFieldMismatch TUint32 "HandleCount"
                      "no such struct field")) /\
  exitOf (Query go64 (serving (objectSet [Ok procNoName; Ok procNoCount]))
            "SELECT Name, HandleCount FROM Win32_Process "
            (destination false Win32_Process []) [])
  <> Returned (Some (ErrFieldMismatch TString "Name" "no such struct field")).
Proof. repeat split. discriminate. Qed.

(** C10.  Whatever the type of the slice [dst] points to and however
    [Query] ends (nil, a field mismatch, a hard error, a panic), the slice
    keeps the elements it had as a prefix: records are only appended after
    them. *)
Theorem Query_keeps_prior_elements :
  forall E W query vt prior args,
  exists added,
    dstOf (Query E W query (IVal (TPtr vt) (VPtr (Some (VSlice prior)))) args)
    = IVal (TPtr vt) (VPtr (Some (VSlice (prior ++ added)))).
Proof.
  intros E W query vt prior args.
  assert (Hsame : IVal (TPtr vt) (VPtr (Some (VSlice prior)))
                  = IVal (TPtr vt) (VPtr (Some (VSlice (prior ++ []))))).
  { now rewrite app_nil_r. }
  unfold Query.
  destruct (checkMultiArg vt) as [[| |] [elemType|]];
    try (exists []; exact Hsame);
    (destruct (CreateObject W "WbemScripting.SWbemLocator");
     [exists []; exact Hsame|]);
    (destruct (QueryInterface W); [exists []; exact Hsame|]);
    (destruct (ConnectServer W args); [exists []; exact Hsame|]);
    (destruct (ExecQuery W query) as [rs|]; [|exists []; exact Hsame]);
    (destruct (Count rs) as [count|]; [|exists []; exact Hsame]);
    match goal with
    | |- context [forItems E rs ?m ?et ?k 0 None (VSlice ?l)] =>
        destruct (forItems_appends E rs m et k 0 None l) as [added Ha];
        destruct (forItems E rs m et k 0 None (VSlice l)) as [[x dv'] tr];
        simpl in Ha; subst dv'; exists added; reflexivity
    end.
Qed.

(** ** The claims about [loadEntity] *)

Lemma cursorValue_zero : forall t, cursorValue t (Zero t) = Zero (cursorType t).
Proof. destruct t; reflexivity. Qed.

(** C6, amended.  When the loop of [loadEntity] comes to a field that is
    not settable and no pointer, it returns the mismatch
    ["CanSet() is false"] for it at once: the fields before it keep what
    was bound, this field and all later ones stay at their zero values, and
    no property of them is read. *)
Theorem loadEntity_returns_at_unsettable_field :
  forall E src p n pre fld post,
    Forall (fun f => passes E src f = true) pre ->
    exported fld = false ->
    KindOf (Typ fld) <> reflect.Ptr ->
    loadEntity E (TStruct p n (pre ++ fld :: post))
      (Zero (TStruct p n (pre ++ fld :: post))) src
    = (VStruct (map (fieldAfter E src) pre ++ Zero (Typ fld) :: zeros post),
       Returned (Some (ErrFieldMismatch (Typ fld) (Name fld)
                         "CanSet() is false")),
       map Name pre).
Proof.
  intros E src p n pre fld post Hpre Hexp Hk.
  rewrite (loadEntity_upto E src p n pre fld post Hpre).
  unfold bindField. rewrite Hexp. cbn [negb].
  rewrite andb_true_r.
  destruct (Typ fld) eqn:Ht; cbn [KindOf reflect.Kind_eqb] in *;
    try congruence; cbn [cursorType cursorValue fieldWith];
    rewrite app_nil_r; reflexivity.
Qed.

Lemma loadEntity_returns_at_unsettable_field_witness :
  loadEntity go64 hiddenName (Zero hiddenName) procSmss
  = (VStruct [VString ""; VUint 0],
     Returned (Some (ErrFieldMismatch TString "name" "CanSet() is false")),
     []).
Proof.
  apply (loadEntity_returns_at_unsettable_field go64 procSmss
           "main" "Win32_Process" []
           (mkField "name" "main" TString)
           [mkField "HandleCount" "" TUint32]).
  - constructor.
  - reflexivity.
  - discriminate.
Defined.

(** C6 as stated fails: after the field that is not settable the binder
    does not go on to the next field.  [HandleCount] stays 0 and its
    property is never read, though the record has the value 53, which the
    field's own turn would store. *)
Lemma loadEntity_unsettable_counterexample :
  loadEntity go64 hiddenName (Zero hiddenName) procSmss
  = (VStruct [VString ""; VUint 0],
     Returned (Some (ErrFieldMismatch TString "name" "CanSet() is false")),
     []) /\
  GetProperty procSmss "HandleCount" = Ok (OleInt64 53) /\
  fieldAfter go64 procSmss (mkField "HandleCount" "" TUint32) = VUint 53.
Proof. repeat split. Qed.

(** C8, amended.  When the loop of [loadEntity] comes to a settable pointer
    field whose property is there with a null value, the field is left
    pointing at a fresh zero value of the pointed-to type (it was set before
    the property was read), no mismatch is recorded, and the loop goes on
    with the next field. *)
Theorem loadEntity_null_into_pointer_field :
  forall E src p n pre fld e post,
    Forall (fun f => passes E src f = true) pre ->
    exported fld = true ->
    Typ fld = TPtr e ->
    GetProperty src (Name fld) = Ok OleNil ->
    loadEntity E (TStruct p n (pre ++ fld :: post))
      (Zero (TStruct p n (pre ++ fld :: post))) src
    = let '(vs', x, props') :=
        fieldLoop E src post (zeros post) (absentMismatch src None pre) in
      (VStruct (map (fieldAfter E src) pre ++ VPtr (Some (Zero e)) :: vs'),
       x, (map Name pre ++ Name fld :: props')%list).
Proof.
  intros E src p n pre fld e post Hpre Hexp Ht Hprop.
  rewrite (loadEntity_upto E src p n pre fld post Hpre).
  unfold bindField. rewrite Hexp, Hprop, Ht.
  cbn [negb KindOf reflect.Kind_eqb andb coerce cursorType cursorValue
       fieldWith].
  destruct (fieldLoop E src post (zeros post) (absentMismatch src None pre))
    as [[vs' x] props'].
  reflexivity.
Qed.

Lemma loadEntity_null_into_pointer_field_witness :
  loadEntity go64 Win32_Service (Zero Win32_Service) svcStopped
  = (VStruct [VString "Spooler"; VPtr (Some (VUint 0))], Returned None,
     ["Name"; "ProcessId"]).
Proof.
  apply (loadEntity_null_into_pointer_field go64 svcStopped
           "main" "Win32_Service" [mkField "Name" "" TString]
           (mkField "ProcessId" "" (TPtr TUint32)) TUint32 []).
  - repeat constructor.
  - reflexivity.
  - reflexivity.
  - reflexivity.
Defined.

(** C8 as stated fails: the pointer does not stay nil.  The field ends up
    pointing at a zero [uint32]; nil is what the field held before. *)
Lemma loadEntity_null_pointer_counterexample :
  Zero Win32_Service = VStruct [VString ""; VPtr None] /\
  boundValue go64 Win32_Service svcStopped
  = VStruct [VString "Spooler"; VPtr (Some (VUint 0))] /\
  boundValue go64 Win32_Service svcStopped
  <> VStruct [VString "Spooler"; VPtr None] /\
  boundExit go64 Win32_Service svcStopped = Returned None.
Proof. repeat split. discriminate. Qed.

Lemma coerce_time : forall E isPtr n sv,
  KindOf (timeType E) = reflect.Struct ->
  coerce E (timeType E) isPtr n (OleString sv)
  = match time_Parse E timeLayout (timeLiteral sv) with
    | Err err => Return_ err
    | Ok t => Stored t
    end.
Proof.
  intros E isPtr n sv Hk. unfold coerce, timeLiteral.
  rewrite Hk, GoType_eqb_refl.
  destruct (Nat.eqb_spec (String.length sv) 25) as [H|H]; [|reflexivity].
  rewrite H. reflexivity.
Qed.

(** C7, amended.  A text value bound into a settable field of type
    [time.Time] (or pointer to it) is parsed with the layout
    [20060102150405.000000-0700]: a literal of 25 characters, one short of
    the layout's 26, gets a "0" inserted at offset 22 first, a literal of
    any other length, 24 and 26 among them, is parsed as it is.  The parsed
    time is stored in the field.  A parse failure leaves [loadEntity] at
    once with the parser's error, and, that error being no field mismatch,
    [Query] returns it, the slice holding only the records bound before. *)
Theorem loadEntity_time_literal :
  forall E W query args rs count byRef prior before src p n pre fld post sv,
    KindOf (timeType E) = reflect.Struct ->
    Forall (fun f => passes E src f = true) pre ->
    exported fld = true ->
    cursorType (Typ fld) = timeType E ->
    GetProperty src (Name fld) = Ok (OleString sv) ->
    (forall err, time_Parse E timeLayout (timeLiteral sv) = Err err ->
                 isErrFieldMismatch err = false) ->
    Serves W query args rs count ->
    recordsAt rs 0 (before ++ [src]) ->
    Forall (fun item =>
              soft (boundExit E (TStruct p n (pre ++ fld :: post)) item) = true)
           before ->
    Z.of_nat (List.length before) < count ->
    (String.length sv = 25%nat ->
     timeLiteral sv = substring 0 22 sv ++ "0" ++ substring 22 3 sv) /\
    (String.length sv <> 25%nat -> timeLiteral sv = sv) /\
    loadEntity E (TStruct p n (pre ++ fld :: post))
      (Zero (TStruct p n (pre ++ fld :: post))) src
    = match time_Parse E timeLayout (timeLiteral sv) with
      | Err err =>
          (VStruct (map (fieldAfter E src) pre
                    ++ fieldWith (Typ fld) (Zero (timeType E)) :: zeros post),
           Returned (Some err), (map Name pre ++ [Name fld])%list)
      | Ok t =>
          let '(vs', x, props') :=
            fieldLoop E src post (zeros post) (absentMismatch src None pre) in
          (VStruct (map (fieldAfter E src) pre ++ fieldWith (Typ fld) t :: vs'),
           x, (map Name pre ++ Name fld :: props')%list)
      end /\
    match time_Parse E timeLayout (timeLiteral sv) with
    | Err err =>
        exitOf (Query E W query
                  (destination byRef (TStruct p n (pre ++ fld :: post)) prior)
                  args)
        = Returned (Some err) /\
        dstOf (Query E W query
                 (destination byRef (TStruct p n (pre ++ fld :: post)) prior)
                 args)
        = destination byRef (TStruct p n (pre ++ fld :: post))
            (prior ++ map (fun item =>
                             element (category byRef)
                               (boundValue E (TStruct p n (pre ++ fld :: post))
                                  item)) before)
    | Ok _ => True
    end.
Proof.
  intros E W query args rs count byRef prior before src p n pre fld post sv
         Hk Hpre Hexp Hty Hprop Hhard HW Hrec Hsoft Hlt.
  assert (Hload :
    loadEntity E (TStruct p n (pre ++ fld :: post))
      (Zero (TStruct p n (pre ++ fld :: post))) src
    = match time_Parse E timeLayout (timeLiteral sv) with
      | Err err =>
          (VStruct (map (fieldAfter E src) pre
                    ++ fieldWith (Typ fld) (Zero (timeType E)) :: zeros post),
           Returned (Some err), (map Name pre ++ [Name fld])%list)
      | Ok t =>
          let '(vs', x, props') :=
            fieldLoop E src post (zeros post) (absentMismatch src None pre) in
          (VStruct (map (fieldAfter E src) pre ++ fieldWith (Typ fld) t :: vs'),
           x, (map Name pre ++ Name fld :: props')%list)
      end).
  { rewrite (loadEntity_upto E src p n pre fld post Hpre).
    unfold bindField. rewrite Hexp, Hprop, Hty. cbn [negb].
    rewrite andb_false_r, (coerce_time E _ _ sv Hk).
    rewrite cursorValue_zero, Hty.
    destruct (time_Parse E timeLayout (timeLiteral sv)) as [t|err];
      reflexivity. }
  split; [|split; [|split]].
  - intros H. unfold timeLiteral. now rewrite H.
  - intros H. unfold timeLiteral.
    destruct (Nat.eqb_spec (String.length sv) 25); [contradiction|reflexivity].
  - exact Hload.
  - destruct (time_Parse E timeLayout (timeLiteral sv)) as [t|err] eqn:Hparse;
      [exact I|].
    assert (Hfail : failsAt E rs (TStruct p n (pre ++ fld :: post))
                      (Z.of_nat (List.length before)) err).
    { right. exists src. repeat split.
      - specialize (Hrec (List.length before) src).
        rewrite Z.add_0_l in Hrec. apply Hrec.
        rewrite nth_error_app2, Nat.sub_diag by lia. reflexivity.
      - unfold boundExit. now rewrite Hload.
      - now apply Hhard. }
    assert (Hrec' : recordsAt rs 0 before).
    { intros j item Hj. apply Hrec.
      rewrite nth_error_app1; [exact Hj|].
      apply nth_error_Some. congruence. }
    destruct (Query_hard E W query args rs count byRef p n
                (pre ++ fld :: post) prior before err
                HW Hrec' Hsoft Hlt Hfail) as (tr & HQ & _).
    rewrite HQ. split; reflexivity.
Qed.

Lemma loadEntity_time_literal_witness :
  loadEntity go64 Win32_OperatingSystem (Zero Win32_OperatingSystem) os25
  = (VStruct [VString "Windows";
              VStruct [VUint 123456000; VInt 63506016600;
                       VPtr (Some (VStruct [VString ""; VInt 4800]))]],
     Returned None, ["Caption"; "InstallDate"]) /\
  exitOf (Query go64 (serving (objectSet [Ok os25; Ok os24]))
            "SELECT Caption, InstallDate FROM Win32_OperatingSystem "
            (destination false Win32_OperatingSystem []) [])
  = Returned (Some (ErrForeign
                      (("parsing time "
                        ++ GoLib.quote "20130605093000.12345+120")
                       ++ " as " ++ GoLib.quote timeLayout))).
Proof.
  split.
  - pose proof (loadEntity_time_literal go64
                  (serving (objectSet [Ok os25]))
                  "SELECT Caption, InstallDate FROM Win32_OperatingSystem " []
                  (objectSet [Ok os25]) 1 false [] [] os25
                  "main" "Win32_OperatingSystem"
                  [mkField "Caption" "" TString]
                  (mkField "InstallDate" "" GoLib.Time) []
                  "20130605093000.123456+120") as H.
    destruct H as (_ & _ & H & _).
    + reflexivity.
    + repeat constructor.
    + reflexivity.
    + reflexivity.
    + reflexivity.
    + intros err He. vm_compute in He. discriminate.
    + repeat split.
    + apply (recordsAt_objectSet [os25]).
    + constructor.
    + simpl. lia.
    + exact H.
  - pose proof (loadEntity_time_literal go64
                  (serving (objectSet [Ok os25; Ok os24]))
                  "SELECT Caption, InstallDate FROM Win32_OperatingSystem " []
                  (objectSet [Ok os25; Ok os24]) 2 false [] [os25] os24
                  "main" "Win32_OperatingSystem"
                  [mkField "Caption" "" TString]
                  (mkField "InstallDate" "" GoLib.Time) []
                  "20130605093000.12345+120") as H.
    destruct H as (_ & _ & _ & H & _).
    + reflexivity.
    + repeat constructor.
    + reflexivity.
    + reflexivity.
    + reflexivity.
    + intros err He. vm_compute in He. inversion He. reflexivity.
    + repeat split.
    + apply (recordsAt_objectSet [os25; os24]).
    + repeat constructor.
    + simpl. lia.
    + exact H.
Defined.

(** C7 as stated fails at both lengths.  The literal of 25 characters is not
    parsed as it is (that fails): a "0" goes in at offset 22 and the field
    is set.  The literal of 24 characters gets no "0": it reaches the parser
    as it is, which the error shows. *)
Lemma loadEntity_time_literal_counterexample :
  String.length "20130605093000.123456+120" = 25%nat /\
  time_Parse go64 timeLayout "20130605093000.123456+120"
  = Err (ErrForeign (("parsing time "
                      ++ GoLib.quote "20130605093000.123456+120")
                     ++ " as " ++ GoLib.quote timeLayout)) /\
  boundExit go64 Win32_OperatingSystem os25 = Returned None /\
  boundValue go64 Win32_OperatingSystem os25
  = VStruct [VString "Windows";
             match time_Parse go64 timeLayout "20130605093000.123456+0120" with
             | Ok t => t
             | Err _ => Zero GoLib.Time
             end] /\
  boundValue go64 Win32_OperatingSystem os25 <> Zero Win32_OperatingSystem /\
  String.length "20130605093000.12345+120" = 24%nat /\
  boundExit go64 Win32_OperatingSystem os24
  = Returned (Some (ErrForeign (("parsing time "
                                 ++ GoLib.quote "20130605093000.12345+120")
                                ++ " as " ++ GoLib.quote timeLayout))) /\
  boundExit go64 Win32_OperatingSystem os24
  <> match time_Parse go64 timeLayout
             (substring 0 22 "20130605093000.12345+120" ++ "0"
              ++ substring 22 2 "20130605093000.12345+120") with
     | Ok _ => Returned None
     | Err err => Returned (Some err)
     end.
Proof.
  repeat split; try (vm_compute; reflexivity); vm_compute; discriminate.
Qed.

(** ** The claim about [CreateQuery] *)

(** C9.  [CreateQuery], for [src] resolving to the type [t]: when [t] is a
    struct type it returns [SELECT], the field names in declaration order
    joined by ", ", [FROM], the type's name, a space and [where] as it is;
    so for a struct named [Win32_Process] with the fields [Name] and
    [HandleCount] and an empty [where] exactly
    "SELECT Name, HandleCount FROM Win32_Process " with its trailing space;
    when [t] is not a struct type it returns the empty string.  A struct
    value, a slice of the struct, and a non-nil pointer to either all
    resolve to the struct type. *)
Theorem CreateQuery_selects_fields :
  forall src where_ t,
    resolveType src = Some t ->
    (forall pkg n fs,
        t = TStruct pkg n fs ->
        CreateQuery src where_
        = Some ("SELECT " ++ Join (map Name fs) ", " ++ " FROM " ++ n
                ++ " " ++ where_)) /\
    (forall pkg f1 f2,
        t = TStruct pkg "Win32_Process" [f1; f2] ->
        Name f1 = "Name" -> Name f2 = "HandleCount" -> where_ = "" ->
        CreateQuery src where_
        = Some "SELECT Name, HandleCount FROM Win32_Process ") /\
    (KindOf t <> reflect.Struct -> CreateQuery src where_ = Some "") /\
    (forall v, KindOf t = reflect.Struct ->
               resolveType (IVal t v) = Some t /\
               resolveType (IVal (TSlice t) v) = Some t /\
               resolveType (IVal (TPtr t) (VPtr (Some v))) = Some t /\
               resolveType (IVal (TPtr (TSlice t)) (VPtr (Some v))) = Some t).
Proof.
  intros src where_ t Hres. unfold CreateQuery. rewrite Hres.
  split; [|split; [|split]].
  - intros pkg n fs ->. reflexivity.
  - intros pkg f1 f2 -> H1 H2 ->. cbn [KindOf FieldsOf map Join TypeName].
    rewrite H1, H2. reflexivity.
  - intros Hk. destruct (KindOf t); try reflexivity. congruence.
  - intros v Hk. destruct t; try discriminate. repeat split.
Qed.

Lemma CreateQuery_selects_fields_witness :
  CreateQuery (slicePtr Win32_Process []) ""
  = Some "SELECT Name, HandleCount FROM Win32_Process ".
Proof.
  refine (proj1 (proj2 (CreateQuery_selects_fields
                          (slicePtr Win32_Process []) "" Win32_Process
                          eq_refl))
                "main" (mkField "Name" "" TString)
                (mkField "HandleCount" "" TUint32)
                eq_refl eq_refl eq_refl eq_refl).
Defined.


(** * Further properties *)

(** ** The ways through [Query] *)

Lemma accepted_shape : forall dst,
  accepted dst = true ->
  exists (byRef : bool) p n fs dv,
    dst = IVal (TPtr (TSlice (if byRef then TPtr (TStruct p n fs)
                              else TStruct p n fs))) (VPtr (Some dv)).
Proof.
  intros dst H. destruct dst as [|t v]; [discriminate|].
  destruct t; try discriminate.
  destruct v as [| | | | |[dv|]| |]; try discriminate.
  destruct t; try discriminate.
  destruct t; try discriminate.
  - destruct t; try discriminate.
    exists true, pkg, name, fields, dv. reflexivity.
  - exists false, pkg, name, fields, dv. reflexivity.
Qed.

Lemma rejected_Query : forall E W query dst args,
  accepted dst = false ->
  Query E W query dst args = (Returned (Some ErrInvalidEntityType), dst, []).
Proof.
  intros E W query dst args H.
  destruct dst as [|t v]; [reflexivity|].
  destruct t; try reflexivity.
  destruct v as [| | | | |[dv|]| |]; try reflexivity.
  destruct t; try reflexivity.
  destruct t; try reflexivity; try discriminate.
  destruct t; try reflexivity; discriminate.
Qed.

(** Closes a branch of [Query] left before the loop: the two equations by
    computation, then the events of the trace one by one. *)
Ltac early_exit :=
  split; [reflexivity|split; [reflexivity|]];
  repeat (apply Forall_cons; [split; reflexivity|]); apply Forall_nil.

(** [Query] on a destination it accepts: a step before the loop fails and
    its error comes back, or the loop runs. *)
Lemma accepted_Query : forall E W query args (byRef : bool) p n fs dv,
  (exists err mid,
      setupError W query args = Some err /\
      Query E W query
        (IVal (TPtr (TSlice (if byRef then TPtr (TStruct p n fs)
                             else TStruct p n fs))) (VPtr (Some dv))) args
      = (Returned (Some err),
         IVal (TPtr (TSlice (if byRef then TPtr (TStruct p n fs)
                             else TStruct p n fs))) (VPtr (Some dv)),
         ([EvLock; EvLockOSThread; EvCoInitializeEx;
           EvCreateObject "WbemScripting.SWbemLocator"] ++ mid ++ leave)%list) /\
      Forall (fun ev => sessionEvent ev = false /\ recordEvent ev = false) mid)
  \/
  (exists rs count,
      setupError W query args = None /\
      ExecQuery W query = Ok rs /\ Count rs = Ok count /\
      Query E W query
        (IVal (TPtr (TSlice (if byRef then TPtr (TStruct p n fs)
                             else TStruct p n fs))) (VPtr (Some dv))) args
      = let '(x, dv', tr) :=
          forItems E rs (category byRef) (TStruct p n fs)
            (Z.to_nat count) 0 None dv in
        (x,
         IVal (TPtr (TSlice (if byRef then TPtr (TStruct p n fs)
                             else TStruct p n fs))) (VPtr (Some dv')),
         (opening query args ++ tr ++ closing)%list)).
Proof.
  intros E W query args byRef p n fs dv.
  unfold Query, setupError. rewrite checkMultiArg_struct.
  destruct byRef; cbn [category];
    (destruct (CreateObject W "WbemScripting.SWbemLocator") as [e|];
     [left; exists e, [];
      early_exit|]);
    (destruct (QueryInterface W) as [e|];
     [left; exists e, [EvQueryInterface; EvRelease HUnknown];
      early_exit|]);
    (destruct (ConnectServer W args) as [e|];
     [left; exists e, [EvQueryInterface; EvConnectServer args;
                       EvRelease HWmi; EvRelease HUnknown];
      early_exit|]);
    (destruct (ExecQuery W query) as [rs|e];
     [|left; exists e, [EvQueryInterface; EvConnectServer args;
                        EvExecQuery query;
                        EvRelease HService; EvRelease HWmi; EvRelease HUnknown];
       early_exit]);
    (destruct (Count rs) as [count|e] eqn:HC;
     [|left; exists e, [EvQueryInterface; EvConnectServer args;
                        EvExecQuery query; EvCount; EvRelease HResult;
                        EvRelease HService; EvRelease HWmi; EvRelease HUnknown];
       early_exit]);
    right; exists rs, count;
    (split; [reflexivity|split; [reflexivity|split; [exact HC|]]]);
    match goal with
    | |- context [forItems ?a ?b ?c ?d ?e ?f ?g ?h] =>
        destruct (forItems a b c d e f g h) as [[x dv'] tr]
    end; reflexivity.
Qed.

(** One turn of the loop either fails to fetch the record and stops, or
    fetches it, reads some properties and releases it. *)
Lemma iteration_trace : forall E rs mat elemType i acc dv,
  (exists err,
      iteration E rs mat elemType i acc dv
      = (Returned (Some err), acc, dv, [EvItemIndex i])) \/
  (exists x acc' dv' props,
      iteration E rs mat elemType i acc dv
      = (x, acc', dv',
         (EvItemIndex i :: map (EvGetProperty i) props
          ++ [EvRelease (HItem i)])%list)).
Proof.
  intros E rs mat elemType i acc dv. unfold iteration.
  destruct (ItemIndex rs i) as [item|err]; [right|left; eauto].
  destruct (loadEntity E elemType (Zero elemType) item) as [[ev x] props].
  destruct x as [[err|]|msg]; [destruct (isErrFieldMismatch err)| |];
    eauto 6.
Qed.

Lemma itemEvents_app : forall a b,
  itemEvents (a ++ b) = (itemEvents a ++ itemEvents b)%list.
Proof.
  induction a as [|e a IH]; intros b; [reflexivity|].
  destruct e; simpl; rewrite ?IH; try reflexivity.
  destruct h; simpl; rewrite ?IH; reflexivity.
Qed.

Lemma itemEvents_props : forall i props,
  itemEvents (map (EvGetProperty i) props ++ [EvRelease (HItem i)])
  = [EvRelease (HItem i)].
Proof. induction props; simpl; auto. Qed.

Lemma itemEvents_outside : forall tr,
  Forall (fun ev => recordEvent ev = false) tr -> itemEvents tr = [].
Proof.
  induction 1 as [|ev tr H _ IH]; [reflexivity|].
  destruct ev; simpl in *; try discriminate; try exact IH.
  destruct h; simpl in *; try discriminate; exact IH.
Qed.

(** The loop fetches consecutive positions and releases every record it
    got before it fetches the next; only a fetch that failed, the last,
    has no release. *)
Lemma forItems_itemEvents : forall E rs mat elemType n i acc dv,
  exists m,
    (m <= n)%nat /\
    (itemEvents (snd (forItems E rs mat elemType n i acc dv)) = paired i m \/
     itemEvents (snd (forItems E rs mat elemType n i acc dv))
     = (paired i m ++ [EvItemIndex (i + Z.of_nat m)])%list).
Proof.
  induction n as [|n IH]; intros i acc dv.
  - exists O. split; [lia|]. left. reflexivity.
  - cbn [forItems].
    destruct (iteration_trace E rs mat elemType i acc dv)
      as [(err & H)|(x & acc' & dv' & props & H)]; rewrite H.
    + exists O. split; [lia|]. right. cbn. now rewrite Z.add_0_r.
    + destruct (IH (i + 1) acc' dv') as (m & Hm & Hev).
      destruct x as [[err|]|msg].
      * exists 1%nat. split; [lia|]. left. cbn [snd itemEvents paired].
        now rewrite itemEvents_props.
      * destruct (forItems E rs mat elemType n (i + 1) acc' dv')
          as [[x dv''] tr].
        exists (S m). split; [lia|]. cbn [snd] in *.
        rewrite itemEvents_app. cbn [itemEvents].
        rewrite itemEvents_props. cbn [app paired].
        destruct Hev as [Hev|Hev]; rewrite Hev; [left; reflexivity|right].
        cbn [app].
        replace (i + Z.of_nat (S m)) with (i + 1 + Z.of_nat m) by lia.
        reflexivity.
      * exists 1%nat. split; [lia|]. left. cbn [snd itemEvents paired].
        now rewrite itemEvents_props.
Qed.

Lemma forItems_recordEvents : forall E rs mat elemType n i acc dv,
  Forall (fun ev => recordEvent ev = true)
         (snd (forItems E rs mat elemType n i acc dv)).
Proof.
  induction n as [|n IH]; intros i acc dv; [constructor|].
  cbn [forItems].
  assert (Hp : forall props,
             Forall (fun ev => recordEvent ev = true)
                    (EvItemIndex i :: map (EvGetProperty i) props
                     ++ [EvRelease (HItem i)])).
  { intros props. constructor; [reflexivity|].
    apply Forall_app. split; [|repeat constructor].
    apply Forall_map. apply Forall_forall. reflexivity. }
  destruct (iteration_trace E rs mat elemType i acc dv)
    as [(err & H)|(x & acc' & dv' & props & H)]; rewrite H.
  - repeat constructor.
  - specialize (IH (i + 1) acc' dv').
    destruct x as [[err|]|msg]; try apply Hp.
    destruct (forItems E rs mat elemType n (i + 1) acc' dv') as [[x dv''] tr].
    cbn [snd] in *. apply Forall_app. split; [apply Hp|exact IH].
Qed.

Lemma record_not_session : forall ev,
  recordEvent ev = true -> sessionEvent ev = false.
Proof. intros ev H. destruct ev; try discriminate; reflexivity. Qed.

(** X1.  [Query] returns [ErrInvalidEntityType] at once, with [dst] as it
    was and without a single call, for a nil interface, a value that is no
    pointer, a nil pointer (of whatever type) and a pointer to anything but
    a slice of structs or of pointers to structs.  For every other [dst] it
    first takes the lock, pins the thread, initialises COM and asks for the
    locator. *)
Theorem Query_accepts_or_rejects :
  forall E W query dst args,
    if accepted dst
    then exists rest,
        traceOf (Query E W query dst args)
        = EvLock :: EvLockOSThread :: EvCoInitializeEx
          :: EvCreateObject "WbemScripting.SWbemLocator" :: rest
    else Query E W query dst args
         = (Returned (Some ErrInvalidEntityType), dst, []).
Proof.
  intros E W query dst args.
  destruct (accepted dst) eqn:Hacc; [|now apply rejected_Query].
  destruct (accepted_shape dst Hacc) as (byRef & p & n & fs & dv & ->).
  destruct (accepted_Query E W query args byRef p n fs dv)
    as [(err & mid & _ & HQ & _)|(rs & count & _ & _ & _ & HQ)]; rewrite HQ.
  - eexists. reflexivity.
  - destruct (forItems E rs _ _ _ _ _ _) as [[x dv'] tr].
    eexists. reflexivity.
Qed.

(** X2.  When a step before the loop fails (making the locator, asking for
    its dispatch interface, connecting, running the query, reading the
    count), [Query] on a destination it accepts returns that step's error,
    leaves [dst] as it was and makes no call for any record. *)
Theorem Query_returns_setup_error :
  forall E W query dst args err,
    accepted dst = true ->
    setupError W query args = Some err ->
    exitOf (Query E W query dst args) = Returned (Some err) /\
    dstOf (Query E W query dst args) = dst /\
    Forall (fun ev => recordEvent ev = false)
           (traceOf (Query E W query dst args)).
Proof.
  intros E W query dst args err Hacc Hset.
  destruct (accepted_shape dst Hacc) as (byRef & p & n & fs & dv & ->).
  destruct (accepted_Query E W query args byRef p n fs dv)
    as [(err' & mid & Hs & HQ & Hmid)|(rs & count & Hs & _)];
    [|congruence].
  rewrite HQ. unfold exitOf, dstOf, traceOf. cbn [fst snd].
  split; [congruence|split; [reflexivity|]].
  apply Forall_app. split; [repeat constructor|].
  apply Forall_app. split; [|repeat constructor].
  eapply Forall_impl; [|exact Hmid]. intros ev [_ H]. exact H.
Qed.

Lemma Query_returns_setup_error_witness :
  exitOf (Query go64
            (mkWorld (fun _ => None) None
                     (fun _ => Some (ErrForeign "Access is denied."))
                     (fun _ => Ok (objectSet [Ok procSystem])))
            "SELECT Name FROM Win32_Process"
            (destination false Win32_Process []) [])
  = Returned (Some (ErrForeign "Access is denied.")) /\
  dstOf (Query go64
           (mkWorld (fun _ => None) None
                    (fun _ => Some (ErrForeign "Access is denied."))
                    (fun _ => Ok (objectSet [Ok procSystem])))
           "SELECT Name FROM Win32_Process"
           (destination false Win32_Process []) [])
  = destination false Win32_Process [].
Proof.
  pose proof (Query_returns_setup_error go64
                (mkWorld (fun _ => None) None
                         (fun _ => Some (ErrForeign "Access is denied."))
                         (fun _ => Ok (objectSet [Ok procSystem])))
                "SELECT Name FROM Win32_Process"
                (destination false Win32_Process []) []
                (ErrForeign "Access is denied.") eq_refl eq_refl) as H.
  destruct H as (H1 & H2 & _). split; [exact H1|exact H2].
Defined.

(** X3.  Whatever its arguments and however it ends, a panic in
    [loadEntity] included, [Query] either makes no call at all or takes the
    lock, pins the thread and initialises COM first and, as its last three
    calls, uninitialises COM, unpins the thread and gives the lock back;
    in between it touches none of the three. *)
Theorem Query_gives_the_lock_back :
  forall E W query dst args,
    traceOf (Query E W query dst args) = [] \/
    exists body,
      traceOf (Query E W query dst args)
      = ([EvLock; EvLockOSThread; EvCoInitializeEx] ++ body
         ++ [EvCoUninitialize; EvUnlockOSThread; EvUnlock])%list /\
      Forall (fun ev => sessionEvent ev = false) body.
Proof.
  intros E W query dst args.
  destruct (accepted dst) eqn:Hacc;
    [|left; now rewrite rejected_Query].
  right.
  destruct (accepted_shape dst Hacc) as (byRef & p & n & fs & dv & ->).
  destruct (accepted_Query E W query args byRef p n fs dv)
    as [(err & mid & _ & HQ & Hmid)|(rs & count & _ & _ & _ & HQ)]; rewrite HQ.
  - exists (EvCreateObject "WbemScripting.SWbemLocator" :: mid).
    split; [reflexivity|]. constructor; [reflexivity|].
    eapply Forall_impl; [|exact Hmid]. intros ev [H _]. exact H.
  - pose proof (forItems_recordEvents E rs (category byRef) (TStruct p n fs)
                  (Z.to_nat count) 0 None dv) as Hrec.
    destruct (forItems E rs _ _ _ _ _ _) as [[x dv'] tr]. cbn [snd] in Hrec.
    exists ([EvCreateObject "WbemScripting.SWbemLocator"; EvQueryInterface;
             EvConnectServer args; EvExecQuery query; EvCount] ++ tr
            ++ [EvRelease HResult; EvRelease HService; EvRelease HWmi;
                EvRelease HUnknown])%list.
    split.
    + unfold traceOf, opening, closing. cbn [snd app].
      rewrite <- !app_assoc. reflexivity.
    + apply Forall_app. split; [repeat constructor|].
      apply Forall_app. split; [|repeat constructor].
      eapply Forall_impl; [|exact Hrec]. apply record_not_session.
Qed.

(** X4.  In every run of [Query] the record handles are fetched at the
    positions 0, 1, 2, ... without a gap, and each one that was got is
    released before the next is fetched or [Query] ends, also when binding
    it failed or panicked; at most the last fetch, one that failed, has no
    release. *)
Theorem Query_releases_every_record :
  forall E W query dst args,
  exists m,
    itemEvents (traceOf (Query E W query dst args)) = paired 0 m \/
    itemEvents (traceOf (Query E W query dst args))
    = (paired 0 m ++ [EvItemIndex (Z.of_nat m)])%list.
Proof.
  intros E W query dst args.
  destruct (accepted dst) eqn:Hacc;
    [|exists O; left; now rewrite rejected_Query].
  destruct (accepted_shape dst Hacc) as (byRef & p & n & fs & dv & ->).
  destruct (accepted_Query E W query args byRef p n fs dv)
    as [(err & mid & _ & HQ & Hmid)|(rs & count & _ & _ & _ & HQ)]; rewrite HQ.
  - exists O. left. unfold traceOf. cbn [snd].
    rewrite !itemEvents_app, (itemEvents_outside mid).
    + reflexivity.
    + eapply Forall_impl; [|exact Hmid]. intros ev [_ H]. exact H.
  - destruct (forItems_itemEvents E rs (category byRef) (TStruct p n fs)
                (Z.to_nat count) 0 None dv) as (m & _ & Hm).
    destruct (forItems E rs _ _ _ _ _ _) as [[x dv'] tr].
    cbn [snd] in Hm. exists m.
    unfold traceOf. cbn [snd].
    rewrite !itemEvents_app.
    change (itemEvents (opening query args)) with (@nil Event).
    change (itemEvents closing) with (@nil Event).
    rewrite app_nil_r. cbn [app]. rewrite Z.add_0_l in Hm. exact Hm.
Qed.

(** X5.  When the result set is empty, or its count is not positive,
    [Query] returns nil, leaves the slice as it was and fetches no record:
    after the count it only releases what it holds. *)
Theorem Query_on_empty_result :
  forall E W query args rs count byRef p n fs prior,
    Serves W query args rs count ->
    count <= 0 ->
    Query E W query (destination byRef (TStruct p n fs) prior) args
    = (Returned None, destination byRef (TStruct p n fs) prior,
       (opening query args ++ closing)%list).
Proof.
  intros E W query args rs count byRef p n fs prior HW Hc.
  rewrite (Query_serves E W query args rs count byRef p n fs prior HW).
  replace (Z.to_nat count) with O by lia. reflexivity.
Qed.

Lemma Query_on_empty_result_witness :
  Query go64 (serving (objectSet []))
    "SELECT Name, HandleCount FROM Win32_Process WHERE Name = 'none'"
    (destination false Win32_Process [VStruct [VString "System"; VUint 512]])
    []
  = (Returned None,
     destination false Win32_Process [VStruct [VString "System"; VUint 512]],
     (opening "SELECT Name, HandleCount FROM Win32_Process WHERE Name = 'none'"
              [] ++ closing)%list).
Proof.
  apply (Query_on_empty_result go64 (serving (objectSet []))
           "SELECT Name, HandleCount FROM Win32_Process WHERE Name = 'none'"
           [] (objectSet []) 0 false "main" "Win32_Process"
           [mkField "Name" "" TString; mkField "HandleCount" "" TUint32]
           [VStruct [VString "System"; VUint 512]]).
  - repeat split.
  - lia.
Defined.

(** X6.  An unexported pointer field makes [loadEntity] panic: [f.Set(ptr)]
    runs before the [CanSet] test.  The fields before it are bound, the
    field itself stays nil.  [Query] then panics at the first record it
    binds: nothing is appended for that record, the records before it stay
    in the slice, and the deferred releases and the unlock still run. *)
Theorem Query_panics_on_unexported_pointer_field :
  forall E W query args rs count byRef prior before src p n pre fld e post,
    Serves W query args rs count ->
    recordsAt rs 0 (before ++ [src]) ->
    Forall (fun item =>
              soft (boundExit E (TStruct p n (pre ++ fld :: post)) item) = true)
           before ->
    Z.of_nat (List.length before) < count ->
    Forall (fun f => passes E src f = true) pre ->
    exported fld = false ->
    Typ fld = TPtr e ->
    loadEntity E (TStruct p n (pre ++ fld :: post))
      (Zero (TStruct p n (pre ++ fld :: post))) src
    = (VStruct (map (fieldAfter E src) pre ++ VPtr None :: zeros post),
       Panicked "reflect: reflect.Value.Set using value obtained using unexported field",
       map Name pre) /\
    exitOf (Query E W query
              (destination byRef (TStruct p n (pre ++ fld :: post)) prior) args)
    = Panicked "reflect: reflect.Value.Set using value obtained using unexported field" /\
    dstOf (Query E W query
             (destination byRef (TStruct p n (pre ++ fld :: post)) prior) args)
    = destination byRef (TStruct p n (pre ++ fld :: post))
        (prior ++ map (fun item =>
                         element (category byRef)
                           (boundValue E (TStruct p n (pre ++ fld :: post))
                              item)) before) /\
    exists body,
      traceOf (Query E W query
                 (destination byRef (TStruct p n (pre ++ fld :: post)) prior)
                 args)
      = (opening query args ++ body
         ++ EvRelease (HItem (Z.of_nat (List.length before))) :: closing)%list.
Proof.
  intros E W query args rs count byRef prior before src p n pre fld e post
         HW Hrec Hsoft Hlt Hpre Hexp Hty.
  assert (Hload :
    loadEntity E (TStruct p n (pre ++ fld :: post))
      (Zero (TStruct p n (pre ++ fld :: post))) src
    = (VStruct (map (fieldAfter E src) pre ++ VPtr None :: zeros post),
       Panicked "reflect: reflect.Value.Set using value obtained using unexported field",
       map Name pre)).
  { rewrite (loadEntity_upto E src p n pre fld post Hpre).
    unfold bindField. rewrite Hexp, Hty.
    cbn [KindOf reflect.Kind_eqb negb andb Zero].
    now rewrite app_nil_r. }
  split; [exact Hload|].
  assert (Hk : ItemIndex rs (Z.of_nat (List.length before)) = Ok src).
  { specialize (Hrec (List.length before) src).
    rewrite Z.add_0_l in Hrec. apply Hrec.
    rewrite nth_error_app2, Nat.sub_diag by lia. reflexivity. }
  assert (Hrec' : recordsAt rs 0 before).
  { intros j item Hj. apply Hrec.
    rewrite nth_error_app1; [exact Hj|].
    apply nth_error_Some. congruence. }
  rewrite (Query_serves E W query args rs count byRef p n _ prior HW).
  replace (Z.to_nat count)
    with (List.length before + S (Z.to_nat count - List.length before - 1))%nat
    by lia.
  rewrite (forItems_soft E rs (category byRef) _ before _ 0 None prior
             Hrec' Hsoft).
  cbn [forItems]. rewrite Z.add_0_l.
  unfold iteration. rewrite Hk, Hload.
  unfold exitOf, dstOf, traceOf. cbn [fst snd].
  split; [reflexivity|split; [reflexivity|]].
  exists (itemsTrace E (TStruct p n (pre ++ fld :: post)) 0 before
          ++ EvItemIndex (Z.of_nat (List.length before))
             :: map (EvGetProperty (Z.of_nat (List.length before)))
                    (map Name pre))%list.
  f_equal. rewrite <- !app_assoc. f_equal.
  cbn [app]. rewrite <- !app_assoc. reflexivity.
Qed.

Lemma Query_panics_on_unexported_pointer_field_witness :
  exitOf (Query go64 (serving (objectSet [Ok procSystem; Ok procSmss]))
            "SELECT Name FROM Win32_Process"
            (destination false hiddenPointer []) [])
  = Panicked "reflect: reflect.Value.Set using value obtained using unexported field" /\
  dstOf (Query go64 (serving (objectSet [Ok procSystem; Ok procSmss]))
           "SELECT Name FROM Win32_Process"
           (destination false hiddenPointer []) [])
  = destination false hiddenPointer [].
Proof.
  pose proof (Query_panics_on_unexported_pointer_field go64
                (serving (objectSet [Ok procSystem; Ok procSmss]))
                "SELECT Name FROM Win32_Process" []
                (objectSet [Ok procSystem; Ok procSmss]) 2 false [] []
                procSystem "main" "Win32_Process"
                [mkField "Name" "" TString]
                (mkField "parent" "main" (TPtr TUint32)) TUint32 []) as H.
  destruct H as (_ & H1 & H2 & _).
  - repeat split.
  - intros j item Hj. destruct j as [|[|j]]; simpl in Hj; try discriminate.
    inversion Hj; subst. reflexivity.
  - constructor.
  - simpl. lia.
  - repeat constructor.
  - reflexivity.
  - reflexivity.
  - split; [exact H1|exact H2].
Defined.

(** ** [checkMultiArg] *)

(** X7.  [checkMultiArg] answers [multiArgTypeStruct] exactly for a slice
    of a struct type and [multiArgTypeStructPtr] exactly for a slice of
    pointers to a struct type; it answers [multiArgTypeInvalid] exactly
    when it returns no type; and a type it returns is a struct type, the
    element type of the slice or what that points to. *)
Theorem checkMultiArg_classifies :
  forall vt,
    (fst (checkMultiArg vt) = multiArgTypeStruct <->
     exists p n fs, vt = TSlice (TStruct p n fs)) /\
    (fst (checkMultiArg vt) = multiArgTypeStructPtr <->
     exists p n fs, vt = TSlice (TPtr (TStruct p n fs))) /\
    (fst (checkMultiArg vt) = multiArgTypeInvalid <->
     snd (checkMultiArg vt) = None) /\
    (forall t, snd (checkMultiArg vt) = Some t ->
               KindOf t = reflect.Struct /\
               (vt = TSlice t \/ vt = TSlice (TPtr t))).
Proof.
  intros vt.
  assert (Hno : forall (P : string -> string -> list (StructField GoType) -> Prop),
             (forall p n fs, ~ P p n fs) ->
             (multiArgTypeInvalid = multiArgTypeStruct <->
              exists p n fs, P p n fs)).
  { intros P HP. split; [discriminate|]. intros (p & n & fs & H).
    now apply HP in H. }
  assert (Hno' : forall (P : string -> string -> list (StructField GoType) -> Prop),
             (forall p n fs, ~ P p n fs) ->
             (multiArgTypeInvalid = multiArgTypeStructPtr <->
              exists p n fs, P p n fs)).
  { intros P HP. split; [discriminate|]. intros (p & n & fs & H).
    now apply HP in H. }
  destruct vt as [| | | | | | | | | | | | | | | | | | | | | | | |et|];
    try (cbn; repeat split; try discriminate;
         try (intros (? & ? & ? & ?); discriminate); fail).
  destruct et as [| | | | | | | | | | | | | | | | | | | | | | |pt| |];
    try (cbn; repeat split; try discriminate;
         try (intros (? & ? & ? & ?); discriminate); fail).
  - destruct pt;
      try (cbn; repeat split; try discriminate;
           try (intros (? & ? & ? & ?); discriminate); fail).
    cbn. repeat split; try discriminate; eauto;
      try (intros (? & ? & ? & ?); discriminate);
      inversion H; subst; auto.
  - cbn. repeat split; try discriminate; eauto;
      try (intros (? & ? & ? & ?); discriminate);
      inversion H; subst; auto.
Qed.

(** ** The coercion table of [loadEntity] *)

Lemma toSigned_spec : forall w x,
  0 < w ->
  - 2 ^ (w - 1) <= toSigned w x < 2 ^ (w - 1) /\
  (toSigned w x - x) mod 2 ^ w = 0 /\
  (- 2 ^ (w - 1) <= x < 2 ^ (w - 1) -> toSigned w x = x).
Proof.
  intros w x Hw. unfold toSigned.
  assert (Hp : 2 ^ w = 2 * 2 ^ (w - 1)).
  { replace w with (Z.succ (w - 1)) at 1 by lia.
    rewrite Z.pow_succ_r by lia. reflexivity. }
  assert (Hh : 0 < 2 ^ (w - 1)) by (apply Z.pow_pos_nonneg; lia).
  pose proof (Z.mod_pos_bound (x + 2 ^ (w - 1)) (2 ^ w) ltac:(lia)) as Hb.
  repeat split; try lia.
  - rewrite (Z.mod_eq (x + 2 ^ (w - 1)) (2 ^ w)) by lia.
    replace (x + 2 ^ (w - 1) - 2 ^ w * ((x + 2 ^ (w - 1)) / 2 ^ w)
             - 2 ^ (w - 1) - x)
      with ((- ((x + 2 ^ (w - 1)) / 2 ^ w)) * 2 ^ w) by ring.
    apply Z.mod_mul. lia.
  - intros Hx. rewrite Z.mod_small by lia. lia.
Qed.

Lemma toUnsigned_spec : forall w x,
  0 < w ->
  0 <= toUnsigned w x < 2 ^ w /\
  (toUnsigned w x - x) mod 2 ^ w = 0 /\
  (0 <= x < 2 ^ w -> toUnsigned w x = x).
Proof.
  intros w x Hw. unfold toUnsigned.
  assert (Hh : 0 < 2 ^ w) by (apply Z.pow_pos_nonneg; lia).
  repeat split; try (apply Z.mod_pos_bound; lia).
  - rewrite (Z.mod_eq x (2 ^ w)) by lia.
    replace (x - 2 ^ w * (x / 2 ^ w) - x) with ((- (x / 2 ^ w)) * 2 ^ w) by ring.
    apply Z.mod_mul. lia.
  - intros Hx. now apply Z.mod_small.
Qed.

Lemma toUnsigned_64 : forall w x,
  In w [8; 16; 32; 64] ->
  toUnsigned w (toUnsigned 64 x) = toUnsigned w x.
Proof.
  intros w x Hw. unfold toUnsigned.
  assert (H : exists b, 0 < b /\ 2 ^ 64 = b * 2 ^ w).
  { simpl in Hw.
    destruct Hw as [<-|[<-|[<-|[<-|[]]]]];
      [exists (2 ^ 56)|exists (2 ^ 48)|exists (2 ^ 32)|exists 1];
      split; reflexivity. }
  destruct H as (b & Hb & Heq).
  assert (Hpos : 0 < 2 ^ w).
  { apply Z.pow_pos_nonneg; [lia|]. simpl in Hw. intuition lia. }
  rewrite (Z.mod_eq x (2 ^ 64)) by lia. rewrite Heq.
  replace (x - b * 2 ^ w * (x / (b * 2 ^ w)))
    with (x + (- (b * (x / (b * 2 ^ w)))) * 2 ^ w) by ring.
  apply Z.mod_add. lia.
Qed.

(** X8.  A 64-bit integer property bound into a signed integer field of
    [w] bits is stored exactly when it fits the field; otherwise the field
    gets the value of its low [w] bits: always a value of the field's
    range that differs from the property by a multiple of 2^w.  No range
    error is reported. *)
Theorem int64_into_signed_field :
  forall E ft isPtr n iv,
    In ft [TInt; TInt8; TInt16; TInt32; TInt64] ->
    IntSize E = 32 \/ IntSize E = 64 ->
    exists z,
      coerce E ft isPtr n (OleInt64 iv) = Stored (VInt z) /\
      - 2 ^ (bitsOf E ft - 1) <= z < 2 ^ (bitsOf E ft - 1) /\
      (z - iv) mod 2 ^ bitsOf E ft = 0 /\
      (- 2 ^ (bitsOf E ft - 1) <= iv < 2 ^ (bitsOf E ft - 1) -> z = iv).
Proof.
  intros E ft isPtr n iv Hft Hsize.
  exists (toSigned (bitsOf E ft) iv).
  assert (Hw : 0 < bitsOf E ft).
  { simpl in Hft.
    destruct Hft as [<-|[<-|[<-|[<-|[<-|[]]]]]]; cbn [bitsOf]; lia. }
  split; [|now apply toSigned_spec].
  simpl in Hft.
  destruct Hft as [<-|[<-|[<-|[<-|[<-|[]]]]]]; reflexivity.
Qed.

Lemma int64_into_signed_field_witness :
  exists z,
    coerce go64 TInt8 false "Priority" (OleInt64 300) = Stored (VInt z) /\
    - 2 ^ (bitsOf go64 TInt8 - 1) <= z < 2 ^ (bitsOf go64 TInt8 - 1) /\
    (z - 300) mod 2 ^ bitsOf go64 TInt8 = 0 /\
    (- 2 ^ (bitsOf go64 TInt8 - 1) <= 300 < 2 ^ (bitsOf go64 TInt8 - 1) ->
     z = 300).
Proof.
  apply (int64_into_signed_field go64 TInt8 false "Priority" 300).
  - simpl. auto.
  - right. reflexivity.
Defined.

(** X9.  A 64-bit integer property bound into an unsigned integer field of
    [w] bits is stored exactly when it is not negative and fits the field;
    otherwise, a negative one included, the field gets the property modulo
    2^w. *)
Theorem int64_into_unsigned_field :
  forall E ft isPtr n iv,
    In ft [TUint; TUint8; TUint16; TUint32; TUint64] ->
    IntSize E = 32 \/ IntSize E = 64 ->
    coerce E ft isPtr n (OleInt64 iv) = Stored (VUint (iv mod 2 ^ bitsOf E ft)) /\
    0 <= iv mod 2 ^ bitsOf E ft < 2 ^ bitsOf E ft /\
    (0 <= iv < 2 ^ bitsOf E ft -> iv mod 2 ^ bitsOf E ft = iv) /\
    (- 2 ^ bitsOf E ft <= iv < 0 ->
     iv mod 2 ^ bitsOf E ft = iv + 2 ^ bitsOf E ft).
Proof.
  intros E ft isPtr n iv Hft Hsize.
  assert (Hw : In (bitsOf E ft) [8; 16; 32; 64]).
  { simpl in Hft. simpl.
    destruct Hft as [<-|[<-|[<-|[<-|[<-|[]]]]]]; cbn [bitsOf];
      destruct Hsize as [H|H]; rewrite ?H; auto 6. }
  assert (Hpos : 0 < 2 ^ bitsOf E ft).
  { apply Z.pow_pos_nonneg; [lia|].
    simpl in Hw. intuition lia. }
  split; [|split; [|split]].
  - change (iv mod 2 ^ bitsOf E ft) with (toUnsigned (bitsOf E ft) iv).
    rewrite <- (toUnsigned_64 (bitsOf E ft) iv Hw).
    simpl in Hft.
    destruct Hft as [<-|[<-|[<-|[<-|[<-|[]]]]]]; reflexivity.
  - apply Z.mod_pos_bound. lia.
  - intros H. now apply Z.mod_small.
  - intros H.
    replace iv with ((iv + 2 ^ bitsOf E ft) + (-1) * 2 ^ bitsOf E ft) at 1
      by ring.
    rewrite Z.mod_add by lia. apply Z.mod_small. lia.
Qed.

Lemma int64_into_unsigned_field_witness :
  coerce go64 TUint64 false "ProcessId" (OleInt64 (-1))
  = Stored (VUint 18446744073709551615).
Proof.
  exact (proj1 (int64_into_unsigned_field go64 TUint64 false "ProcessId" (-1)
                  (or_intror (or_intror (or_intror (or_intror (or_introl eq_refl)))))
                  (or_intror eq_refl))).
Defined.

(** X10.  A text property bound into an integer field, signed or unsigned,
    is bound as the 64-bit integer [strconv.ParseInt] reads in it, range
    and truncation as for an integer property; when the text does not
    parse, the parser's error is returned as it is. *)
Theorem text_into_integer_field :
  forall E ft isPtr n sv,
    In ft [TInt; TInt8; TInt16; TInt32; TInt64;
           TUint; TUint8; TUint16; TUint32; TUint64] ->
    coerce E ft isPtr n (OleString sv)
    = match strconv_ParseInt E sv 10 64 with
      | Ok iv => coerce E ft isPtr n (OleInt64 iv)
      | Err err => Return_ err
      end.
Proof.
  intros E ft isPtr n sv Hft. simpl in Hft.
  destruct Hft as [<-|[<-|[<-|[<-|[<-|[<-|[<-|[<-|[<-|[<-|[]]]]]]]]]]];
    cbn [coerce KindOf];
    destruct (strconv_ParseInt E sv 10 64); reflexivity.
Qed.

Lemma text_into_integer_field_witness :
  coerce go64 TUint32 false "HandleCount" (OleString "53") = Stored (VUint 53)
  /\ coerce go64 TUint32 false "HandleCount" (OleString "5 3")
     = Return_ (ErrForeign ("strconv.ParseInt: parsing " ++ GoLib.quote "5 3"
                            ++ ": invalid syntax")).
Proof.
  split.
  - exact (text_into_integer_field go64 TUint32 false "HandleCount" "53"
             (or_intror (or_intror (or_intror (or_intror (or_intror
                (or_intror (or_intror (or_intror (or_introl eq_refl)))))))))).
  - exact (text_into_integer_field go64 TUint32 false "HandleCount" "5 3"
             (or_intror (or_intror (or_intror (or_intror (or_intror
                (or_intror (or_intror (or_intror (or_introl eq_refl)))))))))).
Defined.

Lemma GoType_eqb_eq : forall a b, GoType_eqb a b = true -> a = b.
Proof.
  fix IH 1.
  destruct a, b; cbn [GoType_eqb]; intros H;
    try discriminate; try reflexivity.
  - apply andb_true_iff in H. destruct H as [H1 H2].
    apply Z.eqb_eq in H1. apply IH in H2. congruence.
  - apply IH in H. congruence.
  - apply andb_true_iff in H. destruct H as [H1 H2].
    apply IH in H1. apply IH in H2. congruence.
  - apply IH in H. congruence.
  - apply IH in H. congruence.
  - apply andb_true_iff in H. destruct H as [H H3].
    apply andb_true_iff in H. destruct H as [H1 H2].
    apply String.eqb_eq in H1. apply String.eqb_eq in H2. subst.
    f_equal.
    revert fields0 H3.
    induction fields as [|f fs IHfs]; intros [|g gs] H3;
      try discriminate; [reflexivity|].
    apply andb_true_iff in H3. destruct H3 as [H H4].
    apply andb_true_iff in H. destruct H as [H H3].
    apply andb_true_iff in H. destruct H as [H1 H2].
    apply String.eqb_eq in H1. apply String.eqb_eq in H2.
    apply IH in H3. apply IHfs in H4.
    destruct f, g. simpl in *. congruence.
Qed.

Lemma timeLiteral_inline : forall sv,
  (if Nat.eqb (String.length sv) 25
   then substring 0 22 sv ++ "0" ++ substring 22 (String.length sv - 22) sv
   else sv) = timeLiteral sv.
Proof.
  intros sv. unfold timeLiteral.
  destruct (Nat.eqb_spec (String.length sv) 25) as [H|H]; [|reflexivity].
  rewrite H. reflexivity.
Qed.

(** X11.  A text property bound into a settable field that is no string,
    no integer of the ten kinds the switch names, and not of type
    [time.Time] (a bool, a float, a [uintptr], a slice, another struct) is
    dropped without a word: the field keeps its zero value (a pointer field
    points at a zero value), no mismatch is recorded, and the loop goes on
    with the next field. *)
Theorem text_into_other_field_is_ignored :
  forall E src p n pre fld post sv,
    Forall (fun f => passes E src f = true) pre ->
    exported fld = true ->
    GetProperty src (Name fld) = Ok (OleString sv) ->
    ~ In (KindOf (cursorType (Typ fld)))
         [reflect.String; reflect.Int; reflect.Int8; reflect.Int16;
          reflect.Int32; reflect.Int64; reflect.Uint; reflect.Uint8;
          reflect.Uint16; reflect.Uint32; reflect.Uint64] ->
    cursorType (Typ fld) <> timeType E ->
    loadEntity E (TStruct p n (pre ++ fld :: post))
      (Zero (TStruct p n (pre ++ fld :: post))) src
    = let '(vs', x, props') :=
        fieldLoop E src post (zeros post) (absentMismatch src None pre) in
      (VStruct (map (fieldAfter E src) pre
                ++ fieldWith (Typ fld) (Zero (cursorType (Typ fld))) :: vs'),
       x, (map Name pre ++ Name fld :: props')%list).
Proof.
  intros E src p n pre fld post sv Hpre Hexp Hprop Hkind Htime.
  rewrite (loadEntity_upto E src p n pre fld post Hpre).
  unfold bindField. rewrite Hexp, Hprop. cbn [negb].
  rewrite andb_false_r, cursorValue_zero.
  assert (Hc : coerce E (cursorType (Typ fld))
                 (reflect.Kind_eqb (KindOf (Typ fld)) reflect.Ptr)
                 (Name fld) (OleString sv) = Break).
  { unfold coerce.
    destruct (GoType_eqb (cursorType (Typ fld)) (timeType E)) eqn:Heq.
    - apply GoType_eqb_eq in Heq. contradiction.
    - destruct (KindOf (cursorType (Typ fld))); try reflexivity;
        exfalso; apply Hkind; simpl; auto 12. }
  rewrite Hc.
  destruct (fieldLoop E src post (zeros post) (absentMismatch src None pre))
    as [[vs' x] props'].
  reflexivity.
Qed.

Lemma text_into_other_field_is_ignored_witness :
  loadEntity go64 Win32_ServiceState (Zero Win32_ServiceState) svcTextual
  = (VStruct [VString "Spooler"; VBool false], Returned None,
     ["Name"; "Started"]).
Proof.
  apply (text_into_other_field_is_ignored go64 svcTextual
           "main" "Win32_Service" [mkField "Name" "" TString]
           (mkField "Started" "" TBool) [] "TRUE").
  - repeat constructor.
  - reflexivity.
  - reflexivity.
  - simpl. intuition discriminate.
  - discriminate.
Defined.

(** ** What [loadEntity] can return *)

Lemma coerce_return : forall E ft isPtr n val err,
  coerce E ft isPtr n val = Return_ err ->
  (exists r,
      err = ErrFieldMismatch ft n r /\
      In r ["not an integer class"; "not a bool"; "unsupported type"]) \/
  (exists sv,
      val = OleString sv /\
      (strconv_ParseInt E sv 10 64 = Err err \/
       time_Parse E timeLayout (timeLiteral sv) = Err err)).
Proof.
  intros E ft isPtr n val err H. unfold coerce in H.
  destruct val as [iv|sv|bv| |]; cbv zeta in H.
  - left. destruct (KindOf ft); inversion H; subst;
      (eexists; split; [reflexivity|simpl; tauto]).
  - right. exists sv. split; [reflexivity|].
    rewrite timeLiteral_inline in H.
    destruct (KindOf ft); try discriminate.
    all: try (destruct (strconv_ParseInt E sv 10 64) as [iv|e];
              inversion H; subst; left; reflexivity).
    destruct (GoType_eqb ft (timeType E)); [|discriminate].
    destruct (time_Parse E timeLayout (timeLiteral sv)) as [t|e];
      inversion H; subst; right; reflexivity.
  - left. destruct (KindOf ft); inversion H; subst;
      (eexists; split; [reflexivity|simpl; tauto]).
  - left. destruct isPtr; inversion H; subst.
    eexists; split; [reflexivity|simpl; tauto].
  - left. inversion H; subst.
    eexists; split; [reflexivity|simpl; tauto].
Qed.

Lemma loadError_incl : forall E src fs fs' err,
  incl fs fs' -> loadError E src fs err -> loadError E src fs' err.
Proof.
  intros E src fs fs' err Hi [(fld & r & Hin & He & Hr)|(fld & sv & Hin & Hg & Hp)].
  - left. exists fld, r. auto.
  - right. exists fld, sv. auto.
Qed.

Lemma bindField_leave_error : forall E src fld v acc f err props,
  bindField E src fld v acc = Leave f (Returned (Some err)) props ->
  loadError E src [fld] err.
Proof.
  intros E src fld v acc f err props H. unfold bindField in H.
  destruct (reflect.Kind_eqb (KindOf (Typ fld)) reflect.Ptr && negb (exported fld));
    [discriminate|].
  destruct (negb (exported fld)).
  - inversion H; subst. left. exists fld. eexists.
    split; [left; reflexivity|]. split; [reflexivity|]. simpl. tauto.
  - destruct (GetProperty src (Name fld)) as [val|e] eqn:Hg; [|discriminate].
    destruct (coerce E _ _ _ val) as [y| |e] eqn:Hc; try discriminate.
    inversion H; subst.
    apply coerce_return in Hc.
    destruct Hc as [(r & He & Hr)|(sv & Hv & Hp)].
    + left. exists fld, r. split; [left; reflexivity|]. split; [exact He|].
      simpl in Hr |- *. tauto.
    + right. exists fld, sv. subst val. split; [left; reflexivity|]. auto.
Qed.

Lemma bindField_continue_error : forall E src fld v acc f acc' props,
  bindField E src fld v acc = Continue f acc' props ->
  acc' = acc \/ exists err, acc' = Some err /\ loadError E src [fld] err.
Proof.
  intros E src fld v acc f acc' props H. unfold bindField in H.
  destruct (reflect.Kind_eqb (KindOf (Typ fld)) reflect.Ptr && negb (exported fld));
    [discriminate|].
  destruct (negb (exported fld)); [discriminate|].
  destruct (GetProperty src (Name fld)) as [val|e] eqn:Hg.
  - destruct (coerce E _ _ _ val); inversion H; subst; auto.
  - inversion H; subst. right. eexists. split; [reflexivity|].
    left. exists fld. eexists. split; [left; reflexivity|].
    split; [reflexivity|]. simpl. tauto.
Qed.

Lemma fieldLoop_error : forall E src all fs vs acc,
  incl fs all ->
  (forall err, acc = Some err -> loadError E src all err) ->
  forall err,
    snd (fst (fieldLoop E src fs vs acc)) = Returned (Some err) ->
    loadError E src all err.
Proof.
  intros E src all fs.
  induction fs as [|fld fs IH]; intros vs acc Hi Hacc err H.
  - destruct vs; simpl in H; inversion H; auto.
  - destruct vs as [|v vs]; [simpl in H; inversion H; auto|].
    cbn [fieldLoop] in H.
    assert (Hfld : incl [fld] all).
    { intros x [<-|[]]. apply Hi. left. reflexivity. }
    assert (Hfs : incl fs all).
    { intros x Hx. apply Hi. right. exact Hx. }
    destruct (bindField E src fld v acc) as [f acc' props|f x props] eqn:Hb.
    + destruct (fieldLoop E src fs vs acc') as [[vs' x] props'] eqn:Hl.
      simpl in H. apply (IH vs acc' Hfs); [|rewrite Hl; exact H].
      intros e He.
      destruct (bindField_continue_error _ _ _ _ _ _ _ _ Hb)
        as [->|(e' & -> & Hload)].
      * auto.
      * inversion He; subst. exact (loadError_incl _ _ _ _ _ Hfld Hload).
    + simpl in H. subst x.
      exact (loadError_incl _ _ _ _ _ Hfld
               (bindField_leave_error _ _ _ _ _ _ _ _ Hb)).
Qed.

(** X12.  Whatever struct [loadEntity] is given, an error it returns is of
    one of two sorts: a field mismatch that names a declared field, its
    type with a pointer followed, and one of the five reasons of the
    source; or, for a declared field whose property came as text, the very
    error [strconv.ParseInt] or [time.Parse] gave for that text. *)
Theorem loadEntity_errors :
  forall E t v src err,
    snd (fst (loadEntity E t v src)) = Returned (Some err) ->
    loadError E src (FieldsOf t) err.
Proof.
  intros E t v src err H. unfold loadEntity in H.
  destruct v; try (simpl in H; discriminate).
  destruct (fieldLoop E src (FieldsOf t) fields None) as [[vs' x] props] eqn:Hl.
  simpl in H.
  apply (fieldLoop_error E src (FieldsOf t) (FieldsOf t) fields None).
  - apply incl_refl.
  - discriminate.
  - rewrite Hl. exact H.
Qed.

Lemma loadEntity_errors_witness :
  loadError go64 svcPartial (FieldsOf Win32_ServiceState)
    (ErrFieldMismatch TBool "Started" "no such struct field").
Proof.
  apply (loadEntity_errors go64 Win32_ServiceState (Zero Win32_ServiceState)).
  reflexivity.
Defined.

(** ** Which properties [loadEntity] reads *)

Lemma bindField_continue_props : forall E src fld v acc f acc' props,
  bindField E src fld v acc = Continue f acc' props -> props = [Name fld].
Proof.
  intros E src fld v acc f acc' props H. unfold bindField in H.
  destruct (reflect.Kind_eqb (KindOf (Typ fld)) reflect.Ptr && negb (exported fld));
    [discriminate|].
  destruct (negb (exported fld)); [discriminate|].
  destruct (GetProperty src (Name fld)) as [val|e].
  - destruct (coerce E _ _ _ val); inversion H; reflexivity.
  - inversion H; reflexivity.
Qed.

Lemma bindField_leave_props : forall E src fld v acc f x props,
  bindField E src fld v acc = Leave f x props ->
  (props = [] /\ f = v) \/ props = [Name fld].
Proof.
  intros E src fld v acc f x props H. unfold bindField in H.
  destruct (reflect.Kind_eqb (KindOf (Typ fld)) reflect.Ptr) eqn:Hk;
    destruct (negb (exported fld)); cbn [andb] in H.
  - inversion H; auto.
  - destruct (GetProperty src (Name fld)) as [val|e]; [|discriminate].
    destruct (coerce E _ _ _ val); inversion H; auto.
  - inversion H; subst. left. split; [reflexivity|].
    destruct (Typ fld); try reflexivity. discriminate.
  - destruct (GetProperty src (Name fld)) as [val|e]; [|discriminate].
    destruct (coerce E _ _ _ val); inversion H; auto.
Qed.

Lemma fieldLoop_prefix : forall E src fs vs acc,
  exists k,
    (k <= List.length fs)%nat /\
    List.length (fst (fst (fieldLoop E src fs vs acc))) = List.length vs /\
    snd (fieldLoop E src fs vs acc) = map Name (firstn k fs) /\
    skipn k (fst (fst (fieldLoop E src fs vs acc))) = skipn k vs.
Proof.
  intros E src fs.
  induction fs as [|fld fs IH]; intros vs acc.
  - exists O. destruct vs; simpl; auto.
  - destruct vs as [|v vs].
    + exists O. simpl. split; [lia|auto].
    + cbn [fieldLoop].
      destruct (bindField E src fld v acc) as [f acc' props|f x props] eqn:Hb.
      * apply bindField_continue_props in Hb. subst props.
        destruct (IH vs acc') as (k & Hk & Hlen & Hprops & Hskip).
        destruct (fieldLoop E src fs vs acc') as [[vs' x] props'].
        simpl in Hlen, Hprops, Hskip.
        exists (S k). simpl. repeat split; try lia; congruence.
      * apply bindField_leave_props in Hb.
        destruct Hb as [[-> ->]| ->].
        -- exists O. simpl. split; [lia|auto].
        -- exists 1%nat. simpl. split; [lia|auto].
Qed.

(** X13.  [loadEntity] asks the record for the names of the first [k]
    fields of the struct, each once and in the order of declaration, for
    some [k]; the struct keeps its number of fields, and the fields after
    the first [k] hold what they held before the call. *)
Theorem loadEntity_reads_a_prefix :
  forall E t vs src,
    exists k vs',
      (k <= List.length (FieldsOf t))%nat /\
      fst (fst (loadEntity E t (VStruct vs) src)) = VStruct vs' /\
      List.length vs' = List.length vs /\
      snd (loadEntity E t (VStruct vs) src) = map Name (firstn k (FieldsOf t)) /\
      skipn k vs' = skipn k vs.
Proof.
  intros E t vs src.
  destruct (fieldLoop_prefix E src (FieldsOf t) vs None)
    as (k & Hk & Hlen & Hprops & Hskip).
  unfold loadEntity.
  destruct (fieldLoop E src (FieldsOf t) vs None) as [[vs' x] props].
  exists k, vs'. simpl in *. auto.
Qed.

(** ** When [loadEntity] returns nil *)

Lemma fieldLoop_nil : forall E src fs acc,
  snd (fst (fieldLoop E src fs (zeros fs) acc)) = Returned None ->
  acc = None /\ Forall (binds E src) fs.
Proof.
  intros E src fs.
  induction fs as [|fld fs IH]; intros acc H.
  - simpl in H. inversion H. auto.
  - cbn [zeros map fieldLoop] in H. fold (zeros fs) in H.
    unfold bindField in H.
    destruct (exported fld) eqn:Hexp; cbn [negb] in H.
    + rewrite andb_false_r in H.
      destruct (GetProperty src (Name fld)) as [val|e] eqn:Hg.
      * destruct (coerce E _ _ _ val) as [y| |e] eqn:Hc.
        -- destruct (fieldLoop E src fs (zeros fs) acc) as [[vs' x] props'] eqn:Hl.
           simpl in H. destruct (IH acc) as [Ha Hf]; [rewrite Hl; exact H|].
           split; [exact Ha|]. constructor; [|exact Hf].
           split; [exact Hexp|]. exists val. split; [exact Hg|].
           intros err. rewrite Hc. discriminate.
        -- destruct (fieldLoop E src fs (zeros fs) acc) as [[vs' x] props'] eqn:Hl.
           simpl in H. destruct (IH acc) as [Ha Hf]; [rewrite Hl; exact H|].
           split; [exact Ha|]. constructor; [|exact Hf].
           split; [exact Hexp|]. exists val. split; [exact Hg|].
           intros err. rewrite Hc. discriminate.
        -- simpl in H. discriminate.
      * match type of H with
        | context [fieldLoop E src fs (zeros fs) ?a] =>
            destruct (fieldLoop E src fs (zeros fs) a) as [[vs' x] props'] eqn:Hl;
            simpl in H; destruct (IH a) as [Ha _]; [rewrite Hl; exact H|];
            discriminate
        end.
    + destruct (reflect.Kind_eqb (KindOf (Typ fld)) reflect.Ptr);
        simpl in H; discriminate.
Qed.

Lemma fieldLoop_binds : forall E src fs,
  Forall (binds E src) fs ->
  snd (fst (fieldLoop E src fs (zeros fs) None)) = Returned None.
Proof.
  intros E src fs H.
  induction H as [|fld fs (Hexp & val & Hg & Hc) _ IH]; [reflexivity|].
  cbn [zeros map fieldLoop]. fold (zeros fs).
  unfold bindField. rewrite Hexp, Hg. cbn [negb]. rewrite andb_false_r.
  destruct (coerce E _ _ _ val) as [y| |e] eqn:Heq.
  - destruct (fieldLoop E src fs (zeros fs) None) as [[vs' x] props'].
    exact IH.
  - destruct (fieldLoop E src fs (zeros fs) None) as [[vs' x] props'].
    exact IH.
  - exfalso. exact (Hc e eq_refl).
Qed.

(** X14.  [loadEntity] returns nil for a fresh struct exactly when every
    field of the struct is settable, the record has a property of its
    name, and the [switch] stores that value or leaves it without
    returning.  So a nil result tells that no property was missing: the
    variable [errFieldMismatch] is never set back to nil. *)
Theorem loadEntity_nil_iff :
  forall E src p n fs,
    boundExit E (TStruct p n fs) src = Returned None <->
    Forall (binds E src) fs.
Proof.
  intros E src p n fs. unfold boundExit. rewrite loadEntity_struct.
  split; intros H.
  - apply (fieldLoop_nil E src fs None).
    destruct (fieldLoop E src fs (zeros fs) None) as [[vs' x] props].
    exact H.
  - pose proof (fieldLoop_binds E src fs H) as Hb.
    destruct (fieldLoop E src fs (zeros fs) None) as [[vs' x] props].
    exact Hb.
Qed.

Lemma loadEntity_nil_iff_witness :
  Forall (binds go64 svcTextual) (FieldsOf Win32_ServiceState).
Proof.
  apply (proj1 (loadEntity_nil_iff go64 svcTextual "main" "Win32_Service"
                  (FieldsOf Win32_ServiceState))).
  reflexivity.
Defined.

(** ** [CreateQuery] beside [Query] *)

(** X15.  [Query] takes a pointer to a slice of structs and a pointer to a
    slice of pointers to structs alike, but [CreateQuery] follows one
    pointer and one slice only: for [*[]S] it gives the SELECT over the
    fields of [S], for [*[]*S], which [Query] accepts, the empty string. *)
Theorem CreateQuery_on_Query_destinations :
  forall byRef p n fs prior where_,
    accepted (destination byRef (TStruct p n fs) prior) = true /\
    CreateQuery (destination byRef (TStruct p n fs) prior) where_
    = Some (if byRef : bool then ""
            else "SELECT " ++ Join (map Name fs) ", " ++ " FROM " ++ n
                 ++ " " ++ where_).
Proof.
  intros [|] p n fs prior where_; split; reflexivity.
Qed.

(** X16.  When the turn of every field ends with the next field, the
    properties [loadEntity] asks a record for are the columns the query of
    [CreateQuery] selects for a slice of the same struct, in the same
    order. *)
Theorem CreateQuery_selects_what_loadEntity_reads :
  forall E src p n fs prior where_,
    Forall (fun fld => passes E src fld = true) fs ->
    CreateQuery (destination false (TStruct p n fs) prior) where_
    = Some ("SELECT " ++ Join (boundProps E (TStruct p n fs) src) ", "
            ++ " FROM " ++ n ++ " " ++ where_).
Proof.
  intros E src p n fs prior where_ Hp.
  unfold boundProps. rewrite (loadEntity_passes E src p n fs Hp).
  reflexivity.
Qed.

Lemma CreateQuery_selects_what_loadEntity_reads_witness :
  CreateQuery (destination false Win32_Process []) "WHERE HandleCount > 100"
  = Some ("SELECT " ++ Join (boundProps go64 Win32_Process procSystem) ", "
          ++ " FROM " ++ "Win32_Process" ++ " " ++ "WHERE HandleCount > 100").
Proof.
  apply (CreateQuery_selects_what_loadEntity_reads go64 procSystem
           "main" "Win32_Process" (FieldsOf Win32_Process) []).
  repeat constructor.
Defined.

(** ** The arguments of the command *)

Lemma Split_pieces : forall s sep,
  Split s sep <> [] /\
  Forall (fun x => hasByte sep x = false) (Split s sep).
Proof.
  induction s as [|c s IH]; intros sep.
  - split; [discriminate|]. repeat constructor.
  - destruct (IH sep) as [Hne Hall]. cbn [Split].
    destruct (Ascii.eqb c sep) eqn:Hc.
    + split; [discriminate|]. constructor; [reflexivity|exact Hall].
    + destruct (Split s sep) as [|x rest]; [contradiction|].
      split; [discriminate|].
      inversion Hall; subst.
      constructor; [|assumption].
      cbn [hasByte]. rewrite Hc. assumption.
Qed.

Lemma columnsFrom_fatal : forall ToLower rest columns msg,
  columnsFrom ToLower rest columns = inl msg ->
  msg = "wmi: must specify columns, * not supported".
Proof.
  intros ToLower rest.
  induction rest as [|v rest IH]; intros columns msg H; [discriminate|].
  cbn [columnsFrom] in H.
  destruct (String.eqb v "*"); [congruence|].
  destruct (String.eqb (ToLower v) "from"); [discriminate|].
  exact (IH _ _ H).
Qed.

Lemma columnsFrom_columns : forall ToLower rest columns out,
  columnsFrom ToLower rest columns = inr out ->
  exists used after,
    rest = (used ++ after)%list /\
    (after = [] \/ exists w after', after = w :: after' /\ ToLower w = "from") /\
    Forall (fun u => u <> "*" /\ ToLower u <> "from") used /\
    out = (columns
           ++ filter (fun s => Nat.ltb 0 (String.length s))
                (flat_map (fun u => Split u ",") used))%list.
Proof.
  intros ToLower rest.
  induction rest as [|v rest IH]; intros columns out H.
  - inversion H; subst. exists [], [].
    cbn [flat_map filter app]. rewrite app_nil_r. repeat split; auto.
  - cbn [columnsFrom] in H.
    destruct (String.eqb v "*") eqn:Hstar; [discriminate|].
    destruct (String.eqb (ToLower v) "from") eqn:Hfrom.
    + inversion H; subst. exists [], (v :: rest).
      cbn [flat_map filter app]. rewrite app_nil_r.
      apply String.eqb_eq in Hfrom.
      repeat split; auto. right. exists v, rest. auto.
    + destruct (IH _ _ H) as (used & after & -> & Hafter & Hused & ->).
      exists (v :: used), after.
      apply String.eqb_neq in Hstar. apply String.eqb_neq in Hfrom.
      repeat split; auto.
      cbn [flat_map]. rewrite filter_app, app_assoc. reflexivity.
Qed.

Lemma Join_empty : forall l sep,
  sep <> "" -> (Join l sep = "" <-> l = [] \/ l = [""]).
Proof.
  intros l sep Hsep. split.
  - destruct l as [|x [|y l]]; cbn [Join]; intros H; auto.
    + right. congruence.
    + exfalso. destruct x; [|discriminate].
      destruct sep; [congruence|discriminate].
  - intros [->| ->]; reflexivity.
Qed.

(** X17.  When [main] gets as far as calling [wmi.QueryGen], the query is
    the arguments joined by single spaces, the first argument is the word
    select in any case, there is at least one column, no column is empty
    or holds a comma, and the connection arguments are a nil host and the
    namespace when the flag [-n] was given and none otherwise. *)
Theorem main_calls_QueryGen :
  forall ToLower namespace Args q columns args,
    main ToLower namespace Args = QueryGen q columns args ->
    q = Join Args " " /\
    (exists v rest, Args = v :: rest /\ ToLower v = "select") /\
    columns <> [] /\
    Forall (fun c => c <> "" /\ hasByte "," c = false) columns /\
    args = (if String.eqb namespace "" then []
            else [INil; IVal TString (VString namespace)]).
Proof.
  intros ToLower namespace Args q columns args H. unfold main in H.
  destruct (Nat.eqb (String.length (Join Args " ")) 0); [discriminate|].
  destruct Args as [|v rest]; [discriminate|].
  destruct (String.eqb (ToLower v) "select") eqn:Hsel; [|discriminate].
  cbn [negb] in H.
  destruct (columnsFrom ToLower rest []) as [msg|out] eqn:Hcols; [discriminate|].
  destruct (Nat.eqb (List.length out) 0) eqn:Hlen; [discriminate|].
  inversion H; subst. clear H.
  split; [reflexivity|].
  split; [exists v, rest; split; [reflexivity|now apply String.eqb_eq]|].
  split; [intros ->; discriminate|].
  split; [|destruct (String.eqb namespace ""); reflexivity].
  destruct (columnsFrom_columns _ _ _ _ Hcols) as (used & after & _ & _ & _ & ->).
  cbn [app]. clear Hlen Hcols.
  induction used as [|u used IH]; [constructor|].
  cbn [flat_map]. rewrite filter_app. apply Forall_app. split; [|exact IH].
  destruct (Split_pieces u ",") as [_ Hall].
  induction Hall as [|x l Hx _ IHl]; [constructor|].
  cbn [filter].
  destruct (Nat.ltb 0 (String.length x)) eqn:Hpos; [|exact IHl].
  constructor; [|exact IHl].
  split; [|exact Hx]. intros ->. discriminate.
Qed.

Lemma main_calls_QueryGen_witness :
  "SELECT Name, HandleCount FROM Win32_Process"
  = Join ["SELECT"; "Name,"; "HandleCount"; "FROM"; "Win32_Process"] " " /\
  (exists v rest,
      ["SELECT"; "Name,"; "HandleCount"; "FROM"; "Win32_Process"] = v :: rest /\
      asciiLower v = "select") /\
  ["Name"; "HandleCount"] <> [] /\
  Forall (fun c => c <> "" /\ hasByte "," c = false) ["Name"; "HandleCount"] /\
  [INil; IVal TString (VString "root\cimv2")]
  = (if String.eqb "root\cimv2" "" then []
     else [INil; IVal TString (VString "root\cimv2")]).
Proof.
  apply (main_calls_QueryGen asciiLower "root\cimv2"
           ["SELECT"; "Name,"; "HandleCount"; "FROM"; "Win32_Process"]).
  reflexivity.
Defined.

(** X18.  The columns [main] hands to [wmi.QueryGen] are the non-empty
    pieces between commas of the arguments after the first and before the
    first argument that is the word from in any case, or of all of them
    when there is none; none of these arguments is a lone star. *)
Theorem main_columns_precede_from :
  forall ToLower namespace Args q columns args,
    main ToLower namespace Args = QueryGen q columns args ->
    exists v used after,
      Args = v :: (used ++ after)%list /\
      (after = [] \/
       exists w after', after = w :: after' /\ ToLower w = "from") /\
      Forall (fun u => u <> "*" /\ ToLower u <> "from") used /\
      columns = filter (fun s => Nat.ltb 0 (String.length s))
                  (flat_map (fun u => Split u ",") used).
Proof.
  intros ToLower namespace Args q columns args H. unfold main in H.
  destruct (Nat.eqb (String.length (Join Args " ")) 0); [discriminate|].
  destruct Args as [|v rest]; [discriminate|].
  destruct (negb (String.eqb (ToLower v) "select")); [discriminate|].
  destruct (columnsFrom ToLower rest []) as [msg|out] eqn:Hcols; [discriminate|].
  destruct (Nat.eqb (List.length out) 0); [discriminate|].
  inversion H; subst. clear H.
  destruct (columnsFrom_columns _ _ _ _ Hcols) as (used & after & -> & Ha & Hu & ->).
  exists v, used, after. auto.
Qed.

Lemma main_columns_precede_from_witness :
  exists v used after,
    ["select"; "Name,Handle"; "from"; "Win32_Process"; "where"; "Name,x"]
    = v :: (used ++ after)%list /\
    (after = [] \/
     exists w after', after = w :: after' /\ asciiLower w = "from") /\
    Forall (fun u => u <> "*" /\ asciiLower u <> "from") used /\
    ["Name"; "Handle"]
    = filter (fun s => Nat.ltb 0 (String.length s))
        (flat_map (fun u => Split u ",") used).
Proof.
  apply (main_columns_precede_from asciiLower ""
           ["select"; "Name,Handle"; "from"; "Win32_Process"; "where"; "Name,x"]
           "select Name,Handle from Win32_Process where Name,x"
           ["Name"; "Handle"] []).
  reflexivity.
Defined.

(** X19.  [main] stops with the message that no query was specified
    exactly when it is given no argument, or one empty argument: any
    second argument puts a space into the query. *)
Theorem main_no_query :
  forall ToLower namespace Args,
    main ToLower namespace Args = Fatal "wmi: no query specified" <->
    Args = [] \/ Args = [""].
Proof.
  intros ToLower namespace Args.
  assert (Hsp : " " <> "") by discriminate.
  rewrite <- (Join_empty Args " " Hsp).
  unfold main.
  destruct (Join Args " ") as [|c q] eqn:Hq.
  - cbn. tauto.
  - cbn [String.length Nat.eqb].
    split; [|discriminate]. intros H. exfalso.
    destruct Args as [|v rest]; [discriminate|].
    destruct (negb (String.eqb (ToLower v) "select")); [discriminate|].
    destruct (columnsFrom ToLower rest []) as [msg|out] eqn:Hcols.
    + apply columnsFrom_fatal in Hcols. subst msg. discriminate.
    + destruct (Nat.eqb (List.length out) 0); discriminate.
Qed.

(** ** A property the field cannot take *)

Lemma coerce_unfit : forall E ft isPtr n val r,
  unfit ft isPtr val = Some r ->
  coerce E ft isPtr n val = Return_ (ErrFieldMismatch ft n r).
Proof.
  intros E ft isPtr n val r H. unfold unfit in H. unfold coerce.
  destruct val as [iv|sv|bv| |].
  - destruct (KindOf ft); cbn in H; inversion H; reflexivity.
  - discriminate.
  - destruct (KindOf ft); cbn in H; inversion H; reflexivity.
  - destruct isPtr; inversion H; reflexivity.
  - inversion H; reflexivity.
Qed.

(** X20.  When a settable field meets a property of a category it cannot
    take (a number for a field that is no integer, a boolean for a field
    that is no bool, a null for a field that is no pointer, a value that
    is no number, text or boolean), [loadEntity] returns the mismatch at
    once: the field stays zero (a pointer field points at a zero value),
    and the fields declared after it are neither asked for nor written,
    whatever the record holds for them. *)
Theorem loadEntity_stops_at_unfit_property :
  forall E src p n pre fld post val r,
    Forall (fun f => passes E src f = true) pre ->
    exported fld = true ->
    GetProperty src (Name fld) = Ok val ->
    unfit (cursorType (Typ fld))
      (reflect.Kind_eqb (KindOf (Typ fld)) reflect.Ptr) val = Some r ->
    loadEntity E (TStruct p n (pre ++ fld :: post))
      (Zero (TStruct p n (pre ++ fld :: post))) src
    = (VStruct (map (fieldAfter E src) pre
                ++ fieldWith (Typ fld) (Zero (cursorType (Typ fld)))
                   :: zeros post),
       Returned (Some (ErrFieldMismatch (cursorType (Typ fld)) (Name fld) r)),
       (map Name pre ++ [Name fld])%list).
Proof.
  intros E src p n pre fld post val r Hpre Hexp Hprop Hunfit.
  rewrite (loadEntity_upto E src p n pre fld post Hpre).
  unfold bindField. rewrite Hexp, Hprop. cbn [negb].
  rewrite andb_false_r, cursorValue_zero.
  rewrite (coerce_unfit E _ _ (Name fld) val r Hunfit).
  reflexivity.
Qed.

Lemma loadEntity_stops_at_unfit_property_witness :
  loadEntity go64 Win32_Process (Zero Win32_Process) procBoolName
  = (VStruct [VString ""; VUint 0],
     Returned (Some (ErrFieldMismatch TString "Name" "not a bool")),
     ["Name"]).
Proof.
  apply (loadEntity_stops_at_unfit_property go64 procBoolName
           "main" "Win32_Process" []
           (mkField "Name" "" TString) [mkField "HandleCount" "" TUint32]
           (OleBool true) "not a bool").
  - constructor.
  - reflexivity.
  - reflexivity.
  - reflexivity.
Defined.

Lemma main_no_query_witness :
  main asciiLower "" [""] = Fatal "wmi: no query specified".
Proof.
  apply (proj2 (main_no_query asciiLower "" [""])).
  right. reflexivity.
Defined.
